(** * TurboPivot front end: a shallow embedding of the TypeScript sources

    The development follows the React components of the repository:
    [types.ts], [FilterConfigurator.tsx], [PivotConfigurator.tsx],
    [App.tsx] and [PivotTable.tsx].  Component state is passed explicitly,
    a handler is a function from the state of the render it closes over to
    the state it sets, and a JavaScript exception is a value of [completion]. *)

From Stdlib Require Import String Ascii List ZArith NArith Bool Lia.
From stdpp Require Import base list strings.

(** ** How a piece of code completes: normally, or by throwing *)

Inductive completion (A : Type) : Type :=
  | Ok (a : A)
  | Throw (error : string).
Arguments Ok {A} a.
Arguments Throw {A} error.

(** ** The JavaScript primitives the components call

    A [string] stands for a JavaScript string whose UTF-16 code units are all
    below 256 (one [ascii] per code unit, the Latin-1 range). *)
Module JS.

(** The numeric values [Number(text)] can produce.  A finite value is kept
    as the mathematical value of the literal, [mantissa * 10^exponent10]
    with its sign; the rounding of that value to a binary64 is not
    modelled. *)
Inductive number : Type :=
  | NaN
  | Infinity (negative : bool)
  | Finite (negative : bool) (mantissa : N) (exponent10 : Z).

Definition isNaN (n : number) : bool :=
  match n with NaN => true | _ => false end.

(** ECMAScript [WhiteSpace] and [LineTerminator] code units below 256:
    TAB, LF, VT, FF, CR, SP and NBSP. *)
Definition isStrWhiteSpaceChar (c : ascii) : bool :=
  let n := N_of_ascii c in
  ((n =? 9) || (n =? 10) || (n =? 11) || (n =? 12) || (n =? 13)
   || (n =? 32) || (n =? 160))%N.

Fixpoint trimStart (s : string) : string :=
  match s with
  | EmptyString => EmptyString
  | String c s' => if isStrWhiteSpaceChar c then trimStart s' else s
  end.

Fixpoint trimEnd (s : string) : string :=
  match s with
  | EmptyString => EmptyString
  | String c s' =>
      match trimEnd s' with
      | EmptyString => if isStrWhiteSpaceChar c then EmptyString else String c EmptyString
      | t => String c t
      end
  end.

(** [String.prototype.trim] *)
Definition trim (s : string) : string := trimEnd (trimStart s).

(** [String.prototype.toLowerCase] on code units below 256: the letters
    A-Z and the Latin-1 capitals U+00C0-U+00DE (U+00D7 is the
    multiplication sign) move up by 32, everything else is unchanged. *)
Definition toLowerCaseChar (c : ascii) : ascii :=
  let n := N_of_ascii c in
  if (((65 <=? n) && (n <=? 90))
      || ((192 <=? n) && (n <=? 222) && negb (n =? 215)))%N
  then ascii_of_N (n + 32) else c.

Fixpoint toLowerCase (s : string) : string :=
  match s with
  | EmptyString => EmptyString
  | String c s' => String (toLowerCaseChar c) (toLowerCase s')
  end.

(** [s.split(sep)] for a separator of one code unit. *)
Fixpoint split (sep : ascii) (s : string) : list string :=
  match s with
  | EmptyString => [EmptyString]
  | String c s' =>
      if Ascii.eqb c sep then EmptyString :: split sep s'
      else match split sep s' with
           | x :: xs => String c x :: xs
           | [] => [String c EmptyString]
           end
  end.

(** [s.includes(c)] for a pattern of one code unit. *)
Fixpoint includesChar (c : ascii) (s : string) : bool :=
  match s with
  | EmptyString => false
  | String d s' => Ascii.eqb c d || includesChar c s'
  end.

Fixpoint startsWith (p s : string) : bool :=
  match p, s with
  | EmptyString, _ => true
  | String a p', String b s' => Ascii.eqb a b && startsWith p' s'
  | String _ _, EmptyString => false
  end.

(** [s.endsWith(p)] *)
Fixpoint endsWith (p s : string) : bool :=
  String.eqb p s
  || match s with
     | EmptyString => false
     | String _ s' => endsWith p s'
     end.

(** *** [StringToNumber] (ECMA-262, 7.1.4.1.1) *)

Definition decimalDigit (c : ascii) : option N :=
  let n := N_of_ascii c in
  if ((48 <=? n) && (n <=? 57))%N then Some (n - 48)%N else None.

Definition hexDigit (c : ascii) : option N :=
  let n := N_of_ascii c in
  if ((48 <=? n) && (n <=? 57))%N then Some (n - 48)%N
  else if ((97 <=? n) && (n <=? 102))%N then Some (n - 87)%N
  else if ((65 <=? n) && (n <=? 70))%N then Some (n - 55)%N
  else None.

(** The value of a digit sequence in the given radix, digit by digit;
    [None] as soon as a code unit is not a digit of that radix. *)
Fixpoint digitsValue (radix : N) (s : string) (acc : N) : option N :=
  match s with
  | EmptyString => Some acc
  | String c s' =>
      match hexDigit c with
      | Some d => if (d <? radix)%N then digitsValue radix s' (acc * radix + d)%N else None
      | None => None
      end
  end.

(** A non-empty digit sequence. *)
Definition digits (radix : N) (s : string) : option N :=
  match s with
  | EmptyString => None
  | _ => digitsValue radix s 0%N
  end.

(** The longest prefix of decimal digits, and what follows it. *)
Fixpoint spanDecimalDigits (s : string) : string * string :=
  match s with
  | EmptyString => (EmptyString, EmptyString)
  | String c s' =>
      match decimalDigit c with
      | Some _ => let '(ds, rest) := spanDecimalDigits s' in (String c ds, rest)
      | None => (EmptyString, s)
      end
  end.

(** [ExponentPart], optional: [e] or [E], an optional sign, digits. *)
Definition exponentPart (s : string) : option Z :=
  match s with
  | EmptyString => Some 0%Z
  | String c r =>
      if Ascii.eqb c "e" || Ascii.eqb c "E" then
        let '(neg, ds) :=
          match r with
          | String "+" r' => (false, r')
          | String "-" r' => (true, r')
          | _ => (false, r)
          end in
        match digits 10 ds with
        | Some n => Some (if neg then - Z.of_N n else Z.of_N n)%Z
        | None => None
        end
      else None
  end.

(** [StrUnsignedDecimalLiteral]: [Infinity], or digits with an optional
    fraction and exponent, or a fraction that starts with the dot. *)
Definition strUnsignedDecimalLiteral (negative : bool) (s : string) : number :=
  if String.eqb s "Infinity" then Infinity negative
  else
    let '(ip, r1) := spanDecimalDigits s in
    let '(fp, r2) :=
      match r1 with
      | String "." r => spanDecimalDigits r
      | _ => (EmptyString, r1)
      end in
    if String.eqb ip "" && String.eqb fp "" then NaN
    else
      match digitsValue 10 (ip +:+ fp) 0%N, exponentPart r2 with
      | Some m, Some e => Finite negative m (e - Z.of_nat (String.length fp))
      | _, _ => NaN
      end.

(** [NonDecimalIntegerLiteral]: 0b, 0o or 0x (either case) and digits. *)
Definition nonDecimalIntegerLiteral (s : string) : option N :=
  match s with
  | String "0" (String p ds) =>
      if Ascii.eqb p "b" || Ascii.eqb p "B" then digits 2 ds
      else if Ascii.eqb p "o" || Ascii.eqb p "O" then digits 8 ds
      else if Ascii.eqb p "x" || Ascii.eqb p "X" then digits 16 ds
      else None
  | _ => None
  end.

Definition strNumericLiteral (s : string) : number :=
  match nonDecimalIntegerLiteral s with
  | Some n => Finite false n 0
  | None =>
      match s with
      | String "+" s' => strUnsignedDecimalLiteral false s'
      | String "-" s' => strUnsignedDecimalLiteral true s'
      | _ => strUnsignedDecimalLiteral false s
      end
  end.

(** [Number(text)] for a string argument: white space around the literal
    is ignored, the empty and the all-blank string are 0, and a text that
    is not a [StringNumericLiteral] is [NaN]. *)
Definition Number (s : string) : number :=
  match trim s with
  | EmptyString => Finite false 0 0
  | t => strNumericLiteral t
  end.

End JS.

(** ** [types.ts]: the enums and structs shared with the backend *)

(** A TypeScript string enum: each member has a name (left of the [=]) and
    a string value (right of it); the value is what travels on the wire. *)
Class StringEnum (E : Type) : Type := {
  members : list E;
  memberName : E -> string;
  memberValue : E -> string
}.

Inductive AggregationType : Type :=
  | Sum | Mean | Count | Min | Max | First | Last | Median | Std | Var.

Inductive FilterOperator : Type :=
  | Equal | NotEqual | GreaterThan | LessThan
  | GreaterThanOrEqual | LessThanOrEqual | Contains | In.

#[export] Instance AggregationType_eq_dec : EqDecision AggregationType.
Proof. solve_decision. Defined.

#[export] Instance FilterOperator_eq_dec : EqDecision FilterOperator.
Proof. solve_decision. Defined.

#[export] Instance AggregationType_enum : StringEnum AggregationType := {|
  members := [Sum; Mean; Count; Min; Max; First; Last; Median; Std; Var];
  memberName a :=
    match a with
    | Sum => "Sum" | Mean => "Mean" | Count => "Count" | Min => "Min"
    | Max => "Max" | First => "First" | Last => "Last" | Median => "Median"
    | Std => "Std" | Var => "Var"
    end;
  memberValue a :=
    match a with
    | Sum => "Sum" | Mean => "Mean" | Count => "Count" | Min => "Min"
    | Max => "Max" | First => "First" | Last => "Last" | Median => "Median"
    | Std => "Std" | Var => "Var"
    end
|}.

#[export] Instance FilterOperator_enum : StringEnum FilterOperator := {|
  members := [Equal; NotEqual; GreaterThan; LessThan; GreaterThanOrEqual;
              LessThanOrEqual; Contains; In];
  memberName o :=
    match o with
    | Equal => "Equal" | NotEqual => "NotEqual" | GreaterThan => "GreaterThan"
    | LessThan => "LessThan" | GreaterThanOrEqual => "GreaterThanOrEqual"
    | LessThanOrEqual => "LessThanOrEqual" | Contains => "Contains" | In => "In"
    end;
  memberValue o :=
    match o with
    | Equal => "Equal" | NotEqual => "NotEqual" | GreaterThan => "GreaterThan"
    | LessThan => "LessThan" | GreaterThanOrEqual => "GreaterThanOrEqual"
    | LessThanOrEqual => "LessThanOrEqual" | Contains => "Contains" | In => "In"
    end
|}.

(** The values of type [any] that occur in a filter condition and in a
    result record, and what reading a record can give besides them: a
    member the record inherits from [Object.prototype] (a function, or the
    prototype itself under [__proto__]), which is kept by its name. *)
#[warnings="-register-all"]
Inductive JSValue : Type :=
  | VNull
  | VNumber (n : JS.number)
  | VBoolean (b : bool)
  | VString (s : string)
  | VArray (items : list JSValue)
  | VInherited (name : string).

Record ValueWithAggregation : Type := {
  field : string;
  aggregation : AggregationType
}.

Record FilterCondition : Type := {
  column : string;
  operator : FilterOperator;
  value : JSValue
}.

Record PivotRequest : Type := {
  data_path : string;
  rows : list string;
  columns : list string;
  values : list ValueWithAggregation;
  filters : option (list FilterCondition)
}.

(** A [Record<string, any>]: the own properties in insertion order. *)
Definition JSObject : Type := list (string * JSValue).

Record PivotResult : Type := {
  data : list JSObject;
  column_headers : list (list string);
  row_headers : list string
}.

(** The own property of that name, if the record has one. *)
Fixpoint getOwnProperty (obj : JSObject) (key : string) : option JSValue :=
  match obj with
  | [] => None
  | (k, v) :: rest => if String.eqb k key then Some v else getOwnProperty rest key
  end.

(** The names every record inherits from [Object.prototype]. *)
Definition objectPrototypeNames : list string :=
  ["constructor"; "__defineGetter__"; "__defineSetter__"; "hasOwnProperty";
   "__lookupGetter__"; "__lookupSetter__"; "isPrototypeOf";
   "propertyIsEnumerable"; "toString"; "valueOf"; "__proto__"; "toLocaleString"].

(** [obj[key]] on a record: the own property, else the member inherited
    under that name; [None] is [undefined]. *)
Definition getProperty (obj : JSObject) (key : string) : option JSValue :=
  match getOwnProperty obj key with
  | Some v => Some v
  | None =>
      if existsb (String.eqb key) objectPrototypeNames
      then Some (VInherited key) else None
  end.

(** [Object.keys(obj)] *)
Definition keys (obj : JSObject) : list string := map fst obj.

(** [array.filter((x, i) => keep x i)] *)
Fixpoint filterWithIndex {A : Type} (keep : A -> nat -> bool) (from : nat) (l : list A) : list A :=
  match l with
  | [] => []
  | x :: rest =>
      if keep x from then x :: filterWithIndex keep (S from) rest
      else filterWithIndex keep (S from) rest
  end.

(** ** [FilterConfigurator.tsx] *)
Module FilterConfigurator.

(** The second and third argument of [updateFilter]: the field that
    changes and the text the control reports for it. *)
Inductive FieldValue : Type :=
  | OperatorField (v : FilterOperator)
  | ColumnField (v : string)
  | ValueField (v : string).

Inductive Event : Type :=
  | ClickAdd
  | ClickRemove (index : nat)
  | Change (index : nat) (fv : FieldValue).

(** The [<option>] values of the operator [<select>], in document order. *)
Definition operatorOptions : list FilterOperator :=
  [Equal; NotEqual; GreaterThan; LessThan; GreaterThanOrEqual;
   LessThanOrEqual; In].

(** The callback of [items.map] in the branch for the [In] operator. *)
Definition parseItem (item : string) : JSValue :=
  if negb (JS.isNaN (JS.Number item)) && negb (String.eqb item "")
  then VNumber (JS.Number item)
  else if String.eqb (JS.toLowerCase item) "true" then VBoolean true
  else if String.eqb (JS.toLowerCase item) "false" then VBoolean false
  else VString item.

Section Component.
(** [props.columns] *)
Variable columns : list string.

(** Every handler below returns [updatedFilters], the array it hands to
    both [setFilters] and [onFiltersChange]. *)

Definition addFilter (filters : list FilterCondition) : list FilterCondition :=
  match columns with
  | [] => filters
  | first :: _ =>
      filters ++ [ {| column := first; operator := Equal; value := VString "" |} ]
  end.

Definition removeFilter (filters : list FilterCondition) (index : nat)
  : list FilterCondition :=
  filterWithIndex (fun _ i => negb (Nat.eqb i index)) 0 filters.

(** [updatedFilters[index]] is [undefined] past the end of the array, and
    assigning to a property of it throws a [TypeError] before any state
    is set.  In the [In] branch neither [split], [trim] nor the [map]
    callback can throw on a string, so its [catch] is never entered. *)
Definition updateFilter (filters : list FilterCondition) (index : nat)
    (fv : FieldValue) : completion (list FilterCondition) :=
  match filters !! index with
  | None => Throw "TypeError"
  | Some target =>
      let updated :=
        match fv with
        | OperatorField v =>
            {| column := column target; operator := v; value := value target |}
        | ColumnField v =>
            {| column := v; operator := operator target; value := value target |}
        | ValueField v =>
            let newValue :=
              if negb (JS.isNaN (JS.Number v)) && negb (String.eqb (JS.trim v) "")
              then VNumber (JS.Number v)
              else if String.eqb (JS.toLowerCase v) "true" then VBoolean true
              else if String.eqb (JS.toLowerCase v) "false" then VBoolean false
              else if bool_decide (operator target = In) then
                let items := map JS.trim (JS.split "," v) in
                let parsedItems := map parseItem items in
                VArray parsedItems
              else VString v in
            {| column := column target; operator := operator target; value := newValue |}
        end in
      Ok (<[index := updated]> filters)
  end.

(** One user event.  An exception in a handler leaves the state as it
    was: [updateFilter] throws before [setFilters]. *)
Definition handle (filters : list FilterCondition) (e : Event) : list FilterCondition :=
  match e with
  | ClickAdd => addFilter filters
  | ClickRemove index => removeFilter filters index
  | Change index fv =>
      match updateFilter filters index fv with
      | Ok updatedFilters => updatedFilters
      | Throw _ => filters
      end
  end.

(** The events the rendered component can raise: a row of controls
    exists for each index below [filters.length], the operator control
    reports one of its options, the column control one of the columns,
    and the text input any string. *)
Definition rendered (filters : list FilterCondition) (e : Event) : Prop :=
  match e with
  | ClickAdd => True
  | ClickRemove index => index < length filters
  | Change index fv =>
      index < length filters /\
      match fv with
      | OperatorField v => v ∈ operatorOptions
      | ColumnField v => v ∈ columns
      | ValueField _ => True
      end
  end.

(** The states of the component: [useState([])], then user events. *)
Inductive reachable : list FilterCondition -> Prop :=
  | reachable_initial : reachable []
  | reachable_event filters e :
      reachable filters -> rendered filters e -> reachable (handle filters e).

End Component.
End FilterConfigurator.

(** ** [PivotConfigurator.tsx] *)
Module PivotConfigurator.

(** The [value]s of the dimension [<select>]: ["rows"], ["columns"],
    ["values"] and ["none"] (the handler receives the last one too,
    through [e.target.value as any]). *)
Inductive Dimension : Type := Rows | Columns | Values | NotUsed.

Record State : Type := {
  rowFields : list string;
  columnFields : list string;
  valueFields : list ValueWithAggregation
}.

(** [useState([])] three times. *)
Definition initial : State :=
  {| rowFields := []; columnFields := []; valueFields := [] |}.

(** Every handler returns the state it sets; its three components are
    also the arguments of [onConfigChange]. *)

Definition handleDimensionChange (s : State) (fld : string) (dimension : Dimension) : State :=
  let newRowFields := filter (fun f => f ≠ fld) (rowFields s) in
  let newColumnFields := filter (fun f => f ≠ fld) (columnFields s) in
  let newValueFields := filter (fun v => field v ≠ fld) (valueFields s) in
  match dimension with
  | Rows =>
      {| rowFields := newRowFields ++ [fld];
         columnFields := newColumnFields;
         valueFields := newValueFields |}
  | Columns =>
      {| rowFields := newRowFields;
         columnFields := newColumnFields ++ [fld];
         valueFields := newValueFields |}
  | Values =>
      {| rowFields := newRowFields;
         columnFields := newColumnFields;
         valueFields := newValueFields ++ [ {| field := fld; aggregation := Sum |} ] |}
  | NotUsed =>
      {| rowFields := newRowFields;
         columnFields := newColumnFields;
         valueFields := newValueFields |}
  end.

Definition handleAggregationChange (s : State) (fld : string) (agg : AggregationType) : State :=
  let updatedValueFields :=
    map (fun v => if bool_decide (field v = fld)
                  then {| field := field v; aggregation := agg |} else v)
        (valueFields s) in
  {| rowFields := rowFields s;
     columnFields := columnFields s;
     valueFields := updatedValueFields |}.

Definition getDimensionForField (s : State) (fld : string) : Dimension :=
  if bool_decide (fld ∈ rowFields s) then Rows
  else if bool_decide (fld ∈ columnFields s) then Columns
  else if existsb (fun v => bool_decide (field v = fld)) (valueFields s) then Values
  else NotUsed.

Inductive Event : Type :=
  | DimensionChange (fld : string) (dimension : Dimension)
  | AggregationChange (fld : string) (agg : AggregationType).

Definition handle (s : State) (e : Event) : State :=
  match e with
  | DimensionChange fld dimension => handleDimensionChange s fld dimension
  | AggregationChange fld agg => handleAggregationChange s fld agg
  end.

(** The state after a sequence of user events, oldest first. *)
Definition run (events : list Event) (s : State) : State :=
  fold_left handle events s.

(** The [value] of the aggregation [<select>] of a field:
    [valueFields.find(v => v.field === column)?.aggregation]. *)
Definition selectedAggregation (s : State) (fld : string) : option AggregationType :=
  aggregation <$> List.find (fun v => bool_decide (field v = fld)) (valueFields s).

(** The [<option>] values of the aggregation [<select>], in document
    order. *)
Definition aggregationOptions : list AggregationType :=
  [Sum; Mean; Count; Min; Max; Median; Std; Var].

Section Component.
(** [props.columns] *)
Variable columns : list string.

(** The events the rendered component can raise: there is a dimension
    control for every column, and an aggregation control, with its eight
    options, for the columns whose dimension is ["values"]. *)
Definition rendered (s : State) (e : Event) : Prop :=
  match e with
  | DimensionChange fld _ => fld ∈ columns
  | AggregationChange fld agg =>
      fld ∈ columns ∧ getDimensionForField s fld = Values ∧ agg ∈ aggregationOptions
  end.

(** The states of the component: [initial], then user events. *)
Inductive reachable : State -> Prop :=
  | reachable_initial : reachable initial
  | reachable_event s e : reachable s -> rendered s e -> reachable (handle s e).

End Component.

End PivotConfigurator.

(** ** [App.tsx] *)
Module App.

Record State : Type := {
  filePath : option string;
  columns : list string;
  rowFields : list string;
  columnFields : list string;
  valueFields : list ValueWithAggregation;
  filters : list FilterCondition;
  pivotResult : option PivotResult;
  isLoading : bool;
  error : option string
}.

(** The initial values of the nine [useState] calls. *)
Definition initial : State :=
  {| filePath := None; columns := []; rowFields := []; columnFields := [];
     valueFields := []; filters := []; pivotResult := None;
     isLoading := false; error := None |}.

(** The state setters. *)

Definition setFilePath (v : option string) (s : State) : State :=
  {| filePath := v; columns := columns s; rowFields := rowFields s;
     columnFields := columnFields s; valueFields := valueFields s;
     filters := filters s; pivotResult := pivotResult s;
     isLoading := isLoading s; error := error s |}.

Definition setColumns (v : list string) (s : State) : State :=
  {| filePath := filePath s; columns := v; rowFields := rowFields s;
     columnFields := columnFields s; valueFields := valueFields s;
     filters := filters s; pivotResult := pivotResult s;
     isLoading := isLoading s; error := error s |}.

Definition setRowFields (v : list string) (s : State) : State :=
  {| filePath := filePath s; columns := columns s; rowFields := v;
     columnFields := columnFields s; valueFields := valueFields s;
     filters := filters s; pivotResult := pivotResult s;
     isLoading := isLoading s; error := error s |}.

Definition setColumnFields (v : list string) (s : State) : State :=
  {| filePath := filePath s; columns := columns s; rowFields := rowFields s;
     columnFields := v; valueFields := valueFields s;
     filters := filters s; pivotResult := pivotResult s;
     isLoading := isLoading s; error := error s |}.

Definition setValueFields (v : list ValueWithAggregation) (s : State) : State :=
  {| filePath := filePath s; columns := columns s; rowFields := rowFields s;
     columnFields := columnFields s; valueFields := v;
     filters := filters s; pivotResult := pivotResult s;
     isLoading := isLoading s; error := error s |}.

Definition setFilters (v : list FilterCondition) (s : State) : State :=
  {| filePath := filePath s; columns := columns s; rowFields := rowFields s;
     columnFields := columnFields s; valueFields := valueFields s;
     filters := v; pivotResult := pivotResult s;
     isLoading := isLoading s; error := error s |}.

Definition setPivotResult (v : option PivotResult) (s : State) : State :=
  {| filePath := filePath s; columns := columns s; rowFields := rowFields s;
     columnFields := columnFields s; valueFields := valueFields s;
     filters := filters s; pivotResult := v;
     isLoading := isLoading s; error := error s |}.

Definition setIsLoading (v : bool) (s : State) : State :=
  {| filePath := filePath s; columns := columns s; rowFields := rowFields s;
     columnFields := columnFields s; valueFields := valueFields s;
     filters := filters s; pivotResult := pivotResult s;
     isLoading := v; error := error s |}.

Definition setError (v : option string) (s : State) : State :=
  {| filePath := filePath s; columns := columns s; rowFields := rowFields s;
     columnFields := columnFields s; valueFields := valueFields s;
     filters := filters s; pivotResult := pivotResult s;
     isLoading := isLoading s; error := v |}.

Definition handleFileSelected (path : string) (cols : list string) (s : State) : State :=
  setFilters [] (setError None (setPivotResult None
    (setColumns cols (setFilePath (Some path) s)))).

Definition handleConfigChange (rws cols : list string)
    (vals : list ValueWithAggregation) (s : State) : State :=
  setValueFields vals (setColumnFields cols (setRowFields rws s)).

Definition handleFiltersChange (newFilters : list FilterCondition) (s : State) : State :=
  setFilters newFilters s.

(** What a rejected [invoke] promise carries into the [catch]. *)
Inductive Thrown : Type :=
  | ErrorInstance (message : string)
  | OtherValue (asString : string).

(** [err instanceof Error ? err.message : String(err)] *)
Definition errorText (err : Thrown) : string :=
  match err with
  | ErrorInstance message => message
  | OtherValue asString => asString
  end.

(** How the promise of [invoke("run_pivot", { request })] settles. *)
Inductive Settled : Type :=
  | Resolved (result : PivotResult)
  | Rejected (err : Thrown).

(** The backend command, seen from the front end. *)
Definition Backend : Type := PivotRequest -> Settled.

(** The object literal of [generatePivot], whose properties are, in
    order, [data_path], [rows], [columns], [values] and [filters]. *)
Definition makeRequest (path : string) (s : State) : PivotRequest :=
  Build_PivotRequest path (rowFields s) (columnFields s) (valueFields s)
    (if (0 <? length (filters s))%nat then Some (filters s) else None).

(** [generatePivot] up to its [await]: the state it sets, and the request
    it sends, if any. *)
Definition generatePivot_begin (s : State) : State * option PivotRequest :=
  match filePath s with
  | None | Some EmptyString =>
      (setError (Some "Please select a file first") s, None)
  | Some path =>
      if (length (valueFields s) =? 0)%nat then
        (setError (Some "Please select at least one value field with aggregation") s,
         None)
      else
        (setError None (setIsLoading true s), Some (makeRequest path s))
  end.

(** [generatePivot] from the [await] on: [try], [catch] and [finally]. *)
Definition generatePivot_settle (outcome : Settled) (s : State) : State :=
  let s' :=
    match outcome with
    | Resolved result => setPivotResult (Some result) s
    | Rejected err =>
        setPivotResult None
          (setError (Some ("Error generating pivot: " +:+ errorText err)) s)
    end in
  setIsLoading false s'.

(** A whole call of [generatePivot] with no other event while the
    request is pending: the final state and the [run_pivot] requests
    that were sent. *)
Definition generatePivot (backend : Backend) (s : State) : State * list PivotRequest :=
  match generatePivot_begin s with
  | (s1, None) => (s1, [])
  | (s1, Some request) => (generatePivot_settle (backend request) s1, [request])
  end.

(** [disabled={isLoading || valueFields.length === 0}], inside
    [columns.length > 0 && ...]: whether the button can be clicked. *)
Definition generateEnabled (s : State) : bool :=
  (0 <? length (columns s))%nat
  && negb (isLoading s || (length (valueFields s) =? 0)%nat).

End App.

(** ** [PivotTable.tsx] *)
Module PivotTable.

(** What a cell shows: [row[key]] as it is, or a number handed to
    [toLocaleString], or nothing. *)
Inductive Content : Type :=
  | Empty
  | Text (s : string)
  | Raw (v : option JSValue)
  | Localized (n : JS.number).

Inductive Cell : Type :=
  | th (colSpan : option nat) (content : Content)
  | td (content : Content).

(** A [<tr>].  The key of a body row is [getRowKey(row)]: the values
    [row[header]], which the source turns into strings and joins with a
    dash; it is kept here as the list of those values. *)
Record Row : Type := tr {
  key : option (list (option JSValue));
  cells : list Cell
}.

Inductive Element : Type :=
  | LoadingMessage
  | EmptyState
  | Table (thead : list Row) (tbody : list Row).

(** [array.map(f)] where [f] can throw: the first exception wins. *)
Fixpoint mapThrowing {A B : Type} (f : A -> completion B) (l : list A) : completion (list B) :=
  match l with
  | [] => Ok []
  | x :: rest =>
      match f x with
      | Throw e => Throw e
      | Ok y =>
          match mapThrowing f rest with
          | Throw e => Throw e
          | Ok ys => Ok (y :: ys)
          end
      end
  end.

(** [result.column_headers[0].map(f)]: reading [map] off [undefined]
    throws. *)
Definition firstHeaderLevelMap {B : Type} (result : PivotResult)
    (f : string -> nat -> B) : completion (list B) :=
  match column_headers result !! 0 with
  | None => Throw "TypeError"
  | Some level => Ok (imap (fun index header => f header index) level)
  end.

Section Render.
Variable result : PivotResult.

(** The data cell of [row] under [colHeader]. *)
Definition dataCell (row : JSObject) (colHeader : string) (colIndex : nat) : Cell :=
  let valueKeys :=
    List.filter
      (fun key => JS.includesChar "_" key
                  && negb (bool_decide (key ∈ row_headers result)))
      (keys row) in
  let matchingKey := List.find (fun key => JS.endsWith colHeader key) valueKeys in
  let cellValue :=
    match matchingKey with
    | Some EmptyString | None => Some (VString "")
    | Some key => getProperty row key
    end in
  td (match cellValue with
      | Some (VNumber n) => Localized n
      | other => Raw other
      end).

Definition getRowKey (row : JSObject) : list (option JSValue) :=
  map (fun header => getProperty row header) (row_headers result).

Definition headerRow : completion (list Row) :=
  if (0 <? length (column_headers result))%nat then
    match firstHeaderLevelMap result (fun header index => th None (Text header)) with
    | Throw e => Throw e
    | Ok headers =>
        let corner :=
          if (0 <? length (row_headers result))%nat
          then [th (Some (length (row_headers result))) Empty] else [] in
        Ok [tr None (corner ++ headers)]
    end
  else Ok [].

Definition bodyRow (row : JSObject) : completion Row :=
  let rowHeaders :=
    map (fun header => th None (Raw (getProperty row header))) (row_headers result) in
  match firstHeaderLevelMap result (dataCell row) with
  | Throw e => Throw e
  | Ok dataCells => Ok (tr (Some (getRowKey row)) (rowHeaders ++ dataCells))
  end.

Definition table : completion Element :=
  match headerRow with
  | Throw e => Throw e
  | Ok thead =>
      match mapThrowing bodyRow (data result) with
      | Throw e => Throw e
      | Ok tbody => Ok (Table thead tbody)
      end
  end.
End Render.

(** The component function. *)
Definition PivotTable (result : option PivotResult) (isLoading : bool)
  : completion Element :=
  if isLoading then Ok LoadingMessage
  else match result with
       | None => Ok EmptyState
       | Some r => table r
       end.

End PivotTable.

(** ** [FileSelector.tsx] *)
Module FileSelector.

(** What the promise of the file dialog resolves to: [null] when the
    dialog is dismissed, a path, or an array of paths. *)
Inductive Selected : Type :=
  | Dismissed
  | OnePath (path : string)
  | ManyPaths (paths : list string).

Inductive Promise (A : Type) : Type :=
  | Fulfilled (a : A)
  | Failed (err : App.Thrown).
Arguments Fulfilled {A} a.
Arguments Failed {A} err.

(** [selectFile], given how the dialog and the [get_csv_columns] command
    settle and the error state of the render it closes over: the error
    state it leaves, and the arguments of its call of [onFileSelected], if
    it makes one.  An empty path is falsy, and an array never passes the
    test. *)
Definition selectFile (dialog : Promise Selected)
    (get_csv_columns : string -> Promise (list string)) (error : option string)
  : option string * option (string * list string) :=
  match dialog with
  | Failed err => (Some ("Error loading file: " +:+ App.errorText err), None)
  | Fulfilled (OnePath EmptyString) => (error, None)
  | Fulfilled (OnePath selected) =>
      match get_csv_columns selected with
      | Failed err => (Some ("Error loading file: " +:+ App.errorText err), None)
      | Fulfilled columns => (None, Some (selected, columns))
      end
  | Fulfilled Dismissed | Fulfilled (ManyPaths _) => (error, None)
  end.

End FileSelector.

(** ** The application as a whole: [App] and the components it renders *)
Module UI.

(** The state of [App], of the three stateful components below it, and
    the [run_pivot] request whose promise has not settled yet. *)
Record State : Type := {
  app : App.State;
  fileSelectorError : option string;
  configurator : PivotConfigurator.State;
  filterConfigurator : list FilterCondition;
  pending : option PivotRequest
}.

Definition initial : State :=
  {| app := App.initial; fileSelectorError := None;
     configurator := PivotConfigurator.initial; filterConfigurator := [];
     pending := None |}.

(** [columns.length > 0 && ...]: whether the two configurators and the
    button are rendered. *)
Definition mounted (s : State) : bool := (0 <? length (App.columns (app s)))%nat.

Inductive Event : Type :=
  | FileSelection (dialog : FileSelector.Promise FileSelector.Selected)
      (get_csv_columns : string -> FileSelector.Promise (list string))
  | Configure (e : PivotConfigurator.Event)
  | Filter (e : FilterConfigurator.Event)
  | ClickGenerate
  | Settle (outcome : App.Settled).

(** A component that is not rendered any more loses its state, and
    starts from its initial state when it is rendered again. *)
Definition afterFileSelected (path : string) (cols : list string) (s : State) : State :=
  {| app := App.handleFileSelected path cols (app s);
     fileSelectorError := fileSelectorError s;
     configurator :=
       match cols with [] => PivotConfigurator.initial | _ => configurator s end;
     filterConfigurator :=
       match cols with [] => [] | _ => filterConfigurator s end;
     pending := pending s |}.

Definition withFileSelectorError (error : option string) (s : State) : State :=
  {| app := app s; fileSelectorError := error; configurator := configurator s;
     filterConfigurator := filterConfigurator s; pending := pending s |}.

(** A handler of [PivotConfigurator] sets its state and hands the three
    lists to [handleConfigChange]. *)
Definition configured (c : PivotConfigurator.State) (s : State) : State :=
  {| app := App.handleConfigChange (PivotConfigurator.rowFields c)
              (PivotConfigurator.columnFields c) (PivotConfigurator.valueFields c) (app s);
     fileSelectorError := fileSelectorError s;
     configurator := c;
     filterConfigurator := filterConfigurator s;
     pending := pending s |}.

(** A handler of [FilterConfigurator] that reaches its end sets its state
    and hands the same array to [handleFiltersChange]. *)
Definition filtered (updatedFilters : list FilterCondition) (s : State) : State :=
  {| app := App.handleFiltersChange updatedFilters (app s);
     fileSelectorError := fileSelectorError s;
     configurator := configurator s;
     filterConfigurator := updatedFilters;
     pending := pending s |}.

Definition withApp (a : App.State) (request : option PivotRequest) (s : State) : State :=
  {| app := a; fileSelectorError := fileSelectorError s;
     configurator := configurator s; filterConfigurator := filterConfigurator s;
     pending := request |}.

Definition handle (s : State) (e : Event) : State :=
  match e with
  | FileSelection dialog get_csv_columns =>
      match FileSelector.selectFile dialog get_csv_columns (fileSelectorError s) with
      | (error, Some (path, cols)) =>
          withFileSelectorError error (afterFileSelected path cols s)
      | (error, None) => withFileSelectorError error s
      end
  | Configure e => configured (PivotConfigurator.handle (configurator s) e) s
  | Filter FilterConfigurator.ClickAdd =>
      match App.columns (app s) with
      | [] => s
      | _ => filtered (FilterConfigurator.addFilter (App.columns (app s))
                         (filterConfigurator s)) s
      end
  | Filter (FilterConfigurator.ClickRemove index) =>
      filtered (FilterConfigurator.removeFilter (filterConfigurator s) index) s
  | Filter (FilterConfigurator.Change index fv) =>
      match FilterConfigurator.updateFilter (filterConfigurator s) index fv with
      | Ok updatedFilters => filtered updatedFilters s
      | Throw _ => s
      end
  | ClickGenerate =>
      match App.generatePivot_begin (app s) with
      | (a, Some request) => withApp a (Some request) s
      | (a, None) => withApp a (pending s) s
      end
  | Settle outcome =>
      match pending s with
      | Some _ => withApp (App.generatePivot_settle outcome (app s)) None s
      | None => s
      end
  end.

(** The events that can happen in a state.  The file dialog is opened by
    a button that is always rendered, and its promises settle whenever
    they do; the configurators raise the events of their rendered controls
    while they are mounted; the button is clicked when it is enabled; and a
    promise settles when a request is pending. *)
Definition enabled (s : State) (e : Event) : Prop :=
  match e with
  | FileSelection _ _ => True
  | Configure e =>
      mounted s = true
      ∧ PivotConfigurator.rendered (App.columns (app s)) (configurator s) e
  | Filter e =>
      mounted s = true
      ∧ FilterConfigurator.rendered (App.columns (app s)) (filterConfigurator s) e
  | ClickGenerate => App.generateEnabled (app s) = true
  | Settle _ => pending s ≠ None
  end.

Inductive reachable : State -> Prop :=
  | reachable_initial : reachable initial
  | reachable_event s e : reachable s -> enabled s e -> reachable (handle s e).

End UI.

(** ** The properties the theorems are about *)

(** The coercion rule as the specification words it: a numeric parse
    first, then the boolean literals in any case, else the text itself.
    A text parses as a number when [Number] accepts it and it is not
    blank. *)
Definition specCoercion (text : string) : JSValue :=
  if negb (JS.isNaN (JS.Number text)) && negb (String.eqb (JS.trim text) "")
  then VNumber (JS.Number text)
  else if String.eqb (JS.toLowerCase text) "true" then VBoolean true
  else if String.eqb (JS.toLowerCase text) "false" then VBoolean false
  else VString text.

Definition isArray (v : JSValue) : bool :=
  match v with VArray _ => true | _ => false end.

(** The pivot request as the specification describes it. *)
Record SpecPivotRequest : Type := {
  spec_rows : list string;
  spec_columns : list string;
  spec_values : list ValueWithAggregation;
  spec_filters : option (list FilterCondition)
}.

Definition specView (r : PivotRequest) : SpecPivotRequest :=
  {| spec_rows := rows r; spec_columns := columns r;
     spec_values := values r; spec_filters := filters r |}.

(** All the fields a configurator state assigns, dimension by dimension. *)
Definition assignedFields (s : PivotConfigurator.State) : list string :=
  PivotConfigurator.rowFields s ++ PivotConfigurator.columnFields s
  ++ map field (PivotConfigurator.valueFields s).

(** An event that sets the aggregation of the given field. *)
Definition changesAggregationOf (fld : string) (e : PivotConfigurator.Event) : Prop :=
  match e with
  | PivotConfigurator.AggregationChange f _ => f = fld
  | PivotConfigurator.DimensionChange _ _ => False
  end.

(** Every value entry of the given field aggregates by [Sum]. *)
Definition aggregatesBySum (fld : string) (s : PivotConfigurator.State) : Prop :=
  ∀ v, v ∈ PivotConfigurator.valueFields s → field v = fld → aggregation v = Sum.

(** The two states the specification allows after a pivot computation. *)
Definition fullySucceeded (s : App.State) : Prop :=
  (∃ r, App.pivotResult s = Some r) ∧ App.error s = None.

Definition fullyRejected (s : App.State) : Prop :=
  (∃ message, App.error s = Some message) ∧ App.pivotResult s = None.

Definition selectFileMessage : string := "Please select a file first".

Definition emptyValueFieldsMessage : string :=
  "Please select at least one value field with aggregation".

(** A request the backend can take as it is: a file, at least one value
    field, no field in two places, and only aggregations and operators the
    controls offer; [filters] is absent or has a condition. *)
Definition wellFormedRequest (r : PivotRequest) : Prop :=
  data_path r ≠ EmptyString
  ∧ values r ≠ []
  ∧ NoDup (rows r ++ columns r ++ map field (values r))
  ∧ Forall (fun v => aggregation v ∈ PivotConfigurator.aggregationOptions) (values r)
  ∧ match filters r with
    | None => True
    | Some conditions =>
        conditions ≠ []
        ∧ Forall (fun f => operator f ∈ FilterConfigurator.operatorOptions) conditions
    end.

(** What holds in every state of the application (see [UI.reachable]). *)
Record UI_invariant (s : UI.State) : Prop := {
  inv_file : App.filePath (UI.app s) = None → App.columns (UI.app s) = [];
  inv_path : ∀ path, App.filePath (UI.app s) = Some path → path ≠ EmptyString;
  inv_app_fields :
    NoDup (App.rowFields (UI.app s) ++ App.columnFields (UI.app s)
           ++ map field (App.valueFields (UI.app s)));
  inv_app_aggregations :
    Forall (fun v => aggregation v ∈ PivotConfigurator.aggregationOptions)
      (App.valueFields (UI.app s));
  inv_fields : NoDup (assignedFields (UI.configurator s));
  inv_aggregations :
    Forall (fun v => aggregation v ∈ PivotConfigurator.aggregationOptions)
      (PivotConfigurator.valueFields (UI.configurator s));
  inv_operators :
    Forall (fun f => operator f ∈ FilterConfigurator.operatorOptions)
      (UI.filterConfigurator s);
  inv_app_operators :
    Forall (fun f => operator f ∈ FilterConfigurator.operatorOptions)
      (App.filters (UI.app s));
  inv_pending :
    ∀ r, UI.pending s = Some r → wellFormedRequest r ∧ App.error (UI.app s) = None;
  inv_loading : App.isLoading (UI.app s) = true ↔ UI.pending s ≠ None;
  inv_error :
    App.error (UI.app s) = None
    ∨ ∃ err, App.error (UI.app s)
             = Some ("Error generating pivot: " +:+ App.errorText err);
  inv_exclusive : App.error (UI.app s) = None ∨ App.pivotResult (UI.app s) = None
}.

(** ** [PivotConfigurator]: the dimensions stay disjoint *)
Section PivotConfiguratorFacts.
Import PivotConfigurator.

Lemma NoDup_insert_middle {A : Type} (x : A) (l1 l2 : list A) :
  NoDup (l1 ++ l2) → x ∉ l1 ++ l2 → NoDup (l1 ++ x :: l2).
Proof.
  intros Hnd Hx. rewrite <- Permutation_middle. by apply NoDup_cons.
Qed.

Lemma fields_of_filtered_values (fld : string) (vs : list ValueWithAggregation) :
  map field (filter (fun v => field v ≠ fld) vs)
  = filter (fun f => f ≠ fld) (map field vs).
Proof.
  induction vs as [|v vs IH]; [done|].
  cbn [map]. rewrite !filter_cons.
  destruct (decide (field v ≠ fld)); cbn [map]; by rewrite IH.
Qed.

Lemma fields_after_aggregation_change (fld : string) (agg : AggregationType)
    (vs : list ValueWithAggregation) :
  map field
    (map (fun v => if bool_decide (field v = fld)
                   then {| field := field v; aggregation := agg |} else v) vs)
  = map field vs.
Proof.
  induction vs as [|v vs IH]; [done|].
  cbn [map]. rewrite IH. by case_bool_decide.
Qed.

(** Removing a field from every dimension gives the old assignment
    without that field. *)
Lemma assigned_after_removal (s : State) (fld : string) :
  assignedFields (handleDimensionChange s fld NotUsed)
  = filter (fun f => f ≠ fld) (assignedFields s).
Proof.
  unfold assignedFields; cbn.
  by rewrite fields_of_filtered_values, !filter_app.
Qed.

Lemma removed_field_absent (fld : string) (l : list string) :
  fld ∉ filter (fun f => f ≠ fld) l.
Proof. rewrite list_elem_of_filter. tauto. Qed.

Lemma handleDimensionChange_exclusive (s : State) (fld : string) (d : Dimension) :
  NoDup (assignedFields s) → NoDup (assignedFields (handleDimensionChange s fld d)).
Proof.
  intros Hnd.
  assert (Hrem : NoDup (assignedFields (handleDimensionChange s fld NotUsed))).
  { rewrite assigned_after_removal. by apply NoDup_filter. }
  assert (Hfresh : fld ∉ assignedFields (handleDimensionChange s fld NotUsed)).
  { rewrite assigned_after_removal. apply removed_field_absent. }
  destruct d; unfold assignedFields in *; cbn in *; [| | |done].
  - rewrite <- app_assoc. cbn. by apply NoDup_insert_middle.
  - rewrite <- !app_assoc. cbn.
    rewrite app_assoc. apply NoDup_insert_middle; by rewrite <- app_assoc.
  - rewrite map_app; cbn. rewrite !app_assoc.
    replace [fld] with (fld :: @nil string ++ []) by done.
    apply NoDup_insert_middle; by rewrite app_nil_r, <- !app_assoc.
Qed.

Lemma handleAggregationChange_assigned (s : State) (fld : string) (agg : AggregationType) :
  assignedFields (handleAggregationChange s fld agg) = assignedFields s.
Proof.
  unfold assignedFields; cbn. by rewrite fields_after_aggregation_change.
Qed.

Lemma handle_exclusive (s : State) (e : Event) :
  NoDup (assignedFields s) → NoDup (assignedFields (handle s e)).
Proof.
  destruct e as [fld d|fld agg]; cbn [handle].
  - apply handleDimensionChange_exclusive.
  - by rewrite handleAggregationChange_assigned.
Qed.

Lemma run_exclusive (events : list Event) (s : State) :
  NoDup (assignedFields s) → NoDup (assignedFields (run events s)).
Proof.
  revert s. induction events as [|e events IH]; intros s Hs; [done|].
  cbn. apply IH. by apply handle_exclusive.
Qed.

(** C6.  After any sequence of dimension assignments (and aggregation
    changes) from the initial configurator state, the concatenation of the
    rows list, the columns list and the fields of the values list has no
    duplicate: no field is in two of the lists, nor twice in one.  A
    pivot request built from the configuration that was handed to the
    parent therefore has no duplicate across its rows and columns. *)
Theorem dimensions_exclusive (events : list Event) :
  let s := run events initial in
  NoDup (rowFields s ++ columnFields s ++ map field (valueFields s))
  ∧ (∀ fld, ¬ (fld ∈ rowFields s ∧ fld ∈ columnFields s)
            ∧ ¬ (fld ∈ rowFields s ∧ fld ∈ map field (valueFields s))
            ∧ ¬ (fld ∈ columnFields s ∧ fld ∈ map field (valueFields s)))
  ∧ (∀ (app : App.State) (path : string),
       let request :=
         App.makeRequest path
           (App.handleConfigChange (rowFields s) (columnFields s) (valueFields s) app) in
       NoDup (rows request ++ columns request)).
Proof.
  intros s.
  assert (Hnd : NoDup (assignedFields s)).
  { apply run_exclusive. cbn. constructor. }
  unfold assignedFields in Hnd.
  split; [done|].
  pose proof Hnd as Hall.
  apply NoDup_app in Hall as (Hr & Hrc & Hcv).
  apply NoDup_app in Hcv as (Hc & Hcv & Hv).
  split.
  - intros fld. repeat split.
    + intros [H1 H2]. apply (Hrc fld H1). apply elem_of_app; by left.
    + intros [H1 H2]. apply (Hrc fld H1). apply elem_of_app; by right.
    + intros [H1 H2]. by apply (Hcv fld H1).
  - intros app path. cbn.
    rewrite app_assoc in Hnd. by apply NoDup_app in Hnd as (? & _ & _).
Qed.

(** *** The default aggregation *)

Lemma handleDimensionChange_keeps_Sum (fld : string) (s : State) (f : string) (d : Dimension) :
  aggregatesBySum fld s → aggregatesBySum fld (handleDimensionChange s f d).
Proof.
  intros Hs v Hv Hf.
  assert (Hold : ∀ w, w ∈ filter (fun v => field v ≠ f) (valueFields s) →
                      field w = fld → aggregation w = Sum).
  { intros w Hw. apply list_elem_of_filter in Hw as [_ Hw]. by apply Hs. }
  destruct d; cbn in Hv; try by apply Hold.
  apply elem_of_app in Hv as [Hv|Hv]; [by apply Hold|].
  apply list_elem_of_singleton in Hv. by subst v.
Qed.

Lemma handleAggregationChange_keeps_Sum (fld : string) (s : State) (f : string)
    (agg : AggregationType) :
  f ≠ fld → aggregatesBySum fld s → aggregatesBySum fld (handleAggregationChange s f agg).
Proof.
  intros Hne Hs v Hv Hf. cbn in Hv.
  apply list_elem_of_fmap in Hv as (w & -> & Hw).
  case_bool_decide; cbn in *; [congruence|]. by apply Hs.
Qed.

Lemma run_keeps_Sum (fld : string) (events : list Event) (s : State) :
  Forall (fun e => ¬ changesAggregationOf fld e) events →
  aggregatesBySum fld s → aggregatesBySum fld (run events s).
Proof.
  intros Hev. revert s.
  induction Hev as [|e events He _ IH]; intros s Hs; [done|].
  cbn. apply IH. destruct e as [f d|f agg]; cbn [handle].
  - by apply handleDimensionChange_keeps_Sum.
  - apply handleAggregationChange_keeps_Sum; [|done]. exact He.
Qed.

Lemma removed_entries_absent (fld : string) (vs : list ValueWithAggregation) :
  filter (fun v => field v = fld) (filter (fun v => field v ≠ fld) vs) = [].
Proof.
  induction vs as [|v vs IH]; [done|].
  rewrite (filter_cons (fun v => field v ≠ fld)).
  destruct (decide (field v ≠ fld)) as [Hne|]; [|done].
  rewrite filter_cons. by destruct (decide (field v = fld)).
Qed.

Lemma assigned_value_is_Sum (s : State) (fld : string) :
  aggregatesBySum fld (handleDimensionChange s fld Values).
Proof.
  intros v Hv Hf. cbn in Hv.
  apply elem_of_app in Hv as [Hv|Hv].
  - apply list_elem_of_filter in Hv as [Hv _]. done.
  - apply list_elem_of_singleton in Hv. by subst v.
Qed.

(** C10.  Assigning a field to the values dimension puts it in the values
    list exactly once, with aggregation [Sum].  Through any later events
    that are not an aggregation change of that field, every entry of the
    field still aggregates by [Sum]; an aggregation change of the field
    sets the aggregation it is given. *)
Theorem new_value_field_aggregates_by_Sum (s : State) (fld : string)
    (events : list Event) :
  Forall (fun e => ¬ changesAggregationOf fld e) events →
  let s1 := handleDimensionChange s fld Values in
  filter (fun v => field v = fld) (valueFields s1)
    = [ {| field := fld; aggregation := Sum |} ]
  ∧ aggregatesBySum fld (run events s1)
  ∧ (∀ agg v, v ∈ valueFields (handleAggregationChange s1 fld agg) →
              field v = fld → aggregation v = agg).
Proof.
  intros Hev s1. split; [|split].
  - subst s1; cbn. rewrite filter_app, removed_entries_absent.
    rewrite filter_cons. by destruct (decide _).
  - apply run_keeps_Sum; [done|]. apply assigned_value_is_Sum.
  - intros agg v Hv Hf. cbn in Hv.
    apply list_elem_of_fmap in Hv as (w & -> & Hw).
    case_bool_decide; cbn in *; [done|congruence].
Qed.

(** The theorem at a concrete configurator: [amount] becomes a value
    field, then [region] a row and the aggregation of another field
    changes. *)
Lemma new_value_field_aggregates_by_Sum_witness :
  aggregatesBySum "amount"
    (run [DimensionChange "region" Rows; AggregationChange "price" Mean]
         (handleDimensionChange initial "amount" Values)).
Proof.
  apply (new_value_field_aggregates_by_Sum initial "amount"
           [DimensionChange "region" Rows; AggregationChange "price" Mean]).
  repeat constructor; cbn; [tauto|]. intros H; discriminate H.
Defined.

End PivotConfiguratorFacts.

(** ** [JS.trim] removes all the white space at both ends *)
Section TrimFacts.
Import JS.

Lemma trimEnd_idempotent (s : string) : trimEnd (trimEnd s) = trimEnd s.
Proof.
  induction s as [|c s IH]; [done|].
  cbn [trimEnd]. destruct (trimEnd s) as [|d t] eqn:Hs.
  - destruct (isStrWhiteSpaceChar c) eqn:Hc; [done|].
    cbn. by rewrite Hc.
  - cbn [trimEnd] in *. by rewrite IH.
Qed.

Lemma trimEnd_keeps_head (c : ascii) (s : string) :
  isStrWhiteSpaceChar c = false → ∃ t, trimEnd (String c s) = String c t.
Proof.
  intros Hc. cbn [trimEnd]. destruct (trimEnd s); [|by eexists].
  rewrite Hc. by eexists.
Qed.

Lemma trimStart_head (s : string) :
  trimStart s = EmptyString
  ∨ ∃ c t, trimStart s = String c t ∧ isStrWhiteSpaceChar c = false.
Proof.
  induction s as [|c s IH]; [by left|].
  cbn. destruct (isStrWhiteSpaceChar c) eqn:Hc; [done|].
  right. by exists c, s.
Qed.

Lemma trim_idempotent (s : string) : trim (trim s) = trim s.
Proof.
  unfold trim. destruct (trimStart_head s) as [->|(c & t & -> & Hc)]; [done|].
  destruct (trimEnd_keeps_head c t Hc) as [t' Ht].
  rewrite Ht at 1. cbn [trimStart]. rewrite Hc, <- Ht.
  apply trimEnd_idempotent.
Qed.

End TrimFacts.

(** ** [FilterConfigurator]: coercion of the value text *)
Section FilterConfiguratorFacts.
Import FilterConfigurator.

(** On a trimmed item, the rule of the [In] branch is the rule for a
    single value. *)
Lemma parseItem_is_specCoercion (text : string) :
  parseItem (JS.trim text) = specCoercion (JS.trim text).
Proof. unfold parseItem, specCoercion. by rewrite trim_idempotent. Qed.

Lemma specCoercion_string (text s : string) :
  specCoercion text = VString s → s = text.
Proof.
  unfold specCoercion.
  destruct (negb (JS.isNaN (JS.Number text)) && _); [done|].
  destruct (String.eqb (JS.toLowerCase text) "true"); [done|].
  destruct (String.eqb (JS.toLowerCase text) "false"); [done|].
  congruence.
Qed.

Lemma updateFilter_value (filters : list FilterCondition) (index : nat)
    (target : FilterCondition) (text : string) :
  filters !! index = Some target →
  updateFilter filters index (ValueField text)
  = Ok (<[index :=
           {| column := column target; operator := operator target;
              value :=
                match specCoercion text with
                | VString _ =>
                    if bool_decide (operator target = In)
                    then VArray (map specCoercion (map JS.trim (JS.split "," text)))
                    else VString text
                | v => v
                end |}]> filters).
Proof.
  intros Hlook. unfold updateFilter, specCoercion. rewrite Hlook.
  do 3 f_equal.
  destruct (negb (JS.isNaN (JS.Number text)) && _); [done|].
  destruct (String.eqb (JS.toLowerCase text) "true"); [done|].
  destruct (String.eqb (JS.toLowerCase text) "false"); [done|].
  case_bool_decide; [|done].
  f_equal. induction (JS.split "," text) as [|x xs IH]; [done|].
  cbn [map]. by rewrite parseItem_is_specCoercion, IH.
Qed.

(** C1, as the code has it.  For every text and every condition that
    exists, [updateFilter] on the value field returns normally and changes
    nothing but the value of that condition.  When the operator is not
    [In], the new value is the coercion of the specification: a number if
    the text parses as one, else a boolean for the literals ["true"] and
    ["false"] in any case, else the text as a string.  When the operator
    is [In], only the last case differs: the text is split at the commas
    into a list. *)
Theorem updateFilter_value_coercion (filters : list FilterCondition) (index : nat)
    (target : FilterCondition) (text : string) :
  filters !! index = Some target →
  ∃ newValue,
    updateFilter filters index (ValueField text)
    = Ok (<[index := {| column := column target; operator := operator target;
                        value := newValue |}]> filters)
    ∧ (operator target ≠ In → newValue = specCoercion text)
    ∧ (operator target = In →
         newValue = match specCoercion text with
                    | VString _ =>
                        VArray (map parseItem (map JS.trim (JS.split "," text)))
                    | v => v
                    end).
Proof.
  intros Hlook. eexists. split; [by apply updateFilter_value|].
  split; intros Hop.
  - rewrite bool_decide_eq_false_2 by done.
    destruct (specCoercion text) eqn:Hspec; try done.
    by rewrite (specCoercion_string _ _ Hspec).
  - rewrite bool_decide_eq_true_2 by done.
    destruct (specCoercion text); try done.
    f_equal. induction (JS.split "," text) as [|x xs IH]; [done|].
    cbn [map]. by rewrite parseItem_is_specCoercion, IH.
Qed.

(** The theorem on one condition with operator [Equal] and the text [42]. *)
Lemma updateFilter_value_coercion_witness :
  ∃ newValue,
    updateFilter [ {| column := "amount"; operator := Equal; value := VString "" |} ]
      0 (ValueField "42")
    = Ok [ {| column := "amount"; operator := Equal; value := newValue |} ]
    ∧ newValue = VNumber (JS.Finite false 42 0).
Proof.
  destruct (updateFilter_value_coercion
              [ {| column := "amount"; operator := Equal; value := VString "" |} ]
              0 _ "42" eq_refl) as (newValue & Hupd & Hscalar & _).
  exists newValue. split; [exact Hupd|].
  rewrite Hscalar; [reflexivity|]. cbn. discriminate.
Defined.

(** C1 as it is stated fails: under the [In] operator a text that is
    neither a number nor a boolean literal does not stay a string. *)
Lemma coercion_keeps_string_counterexample :
  ¬ (∀ (filters : list FilterCondition) (index : nat) (target : FilterCondition)
       (text : string),
       filters !! index = Some target →
       ∃ updated,
         updateFilter filters index (ValueField text) = Ok updated
         ∧ value <$> (updated !! index) = Some (specCoercion text)).
Proof.
  intros H.
  destruct (H [ {| column := "region"; operator := In; value := VString "" |} ]
              0 _ "east,west" eq_refl) as (updated & Hupd & Hval).
  vm_compute in Hupd. injection Hupd as <-.
  vm_compute in Hval. discriminate Hval.
Qed.

(** C2 at the failing input: the operator is [In] and the text is [5];
    the value that [updateFilter] stores is the number 5, not a list. *)
Theorem In_single_number_stays_scalar :
  updateFilter [ {| column := "amount"; operator := In; value := VString "" |} ]
    0 (ValueField "5")
  = Ok [ {| column := "amount"; operator := In; value := VNumber (JS.Finite false 5 0) |} ]
  ∧ isArray (VNumber (JS.Finite false 5 0)) = false.
Proof. split; reflexivity. Qed.

(** What does hold under [In]: a text that is not a number and not a
    boolean literal as a whole becomes the list of its comma-separated
    items, each trimmed and coerced on its own by the rule for a single
    value. *)
Lemma In_list_elements_coerced (filters : list FilterCondition) (index : nat)
    (target : FilterCondition) (text s : string) :
  filters !! index = Some target →
  operator target = In →
  specCoercion text = VString s →
  updateFilter filters index (ValueField text)
  = Ok (<[index := {| column := column target; operator := In;
                      value := VArray (map specCoercion
                                         (map JS.trim (JS.split "," text))) |}]>
          filters).
Proof.
  intros Hlook Hop Hstr. rewrite (updateFilter_value _ _ _ _ Hlook).
  by rewrite Hstr, Hop.
Qed.

(** *** The operators a condition can have *)

Lemma Forall_filterWithIndex {A : Type} (P : A → Prop) (keep : A → nat → bool)
    (from : nat) (l : list A) :
  Forall P l → Forall P (filterWithIndex keep from l).
Proof.
  intros Hl. revert from.
  induction Hl as [|x l Hx _ IH]; intros from; cbn; [constructor|].
  destruct (keep x from); [constructor|]; auto.
Qed.

Lemma handle_keeps_operators (columns : list string)
    (filters : list FilterCondition) (e : Event) :
  rendered columns filters e →
  Forall (fun f => operator f ∈ operatorOptions) filters →
  Forall (fun f => operator f ∈ operatorOptions) (handle columns filters e).
Proof.
  intros He Hall. destruct e as [|index|index fv]; cbn [handle].
  - unfold addFilter. destruct columns as [|first rest]; [done|].
    apply Forall_app. split; [done|].
    repeat constructor.
  - by apply Forall_filterWithIndex.
  - unfold updateFilter.
    destruct (filters !! index) as [target|] eqn:Hlook; [|done].
    assert (Htarget : operator target ∈ operatorOptions).
    { eapply (proj1 (Forall_forall _ _) Hall), list_elem_of_lookup_2, Hlook. }
    apply Forall_insert; [done|].
    destruct fv as [v|v|v]; cbn; [|done..].
    by destruct He as [_ Hv].
Qed.

Lemma Contains_not_offered : Contains ∉ operatorOptions.
Proof.
  unfold operatorOptions. rewrite !not_elem_of_cons.
  repeat split; try discriminate. apply not_elem_of_nil.
Qed.

(** C9.  In every state the filter configurator can reach from its empty
    initial state through the events its rendered controls raise, the
    operator of every condition is one of the seven options of the
    operator control; in particular it is never [Contains]. *)
Theorem operators_are_offered (columns : list string)
    (filters : list FilterCondition) :
  reachable columns filters →
  Forall (fun f => operator f ∈
                     [Equal; NotEqual; GreaterThan; LessThan;
                      GreaterThanOrEqual; LessThanOrEqual; In]
                   ∧ operator f ≠ Contains) filters.
Proof.
  intros Hreach.
  assert (Hall : Forall (fun f => operator f ∈ operatorOptions) filters).
  { induction Hreach as [|filters e _ IH He]; [constructor|].
    by apply handle_keeps_operators. }
  eapply Forall_impl; [exact Hall|].
  intros f Hf. cbn beta in Hf. split; [exact Hf|].
  intros Heq. rewrite Heq in Hf. by apply Contains_not_offered.
Qed.

(** The theorem on a run: a condition is added, its operator is set to
    [In] and its value text to [a, b]. *)
Lemma operators_are_offered_witness :
  Forall (fun f => operator f ∈
                     [Equal; NotEqual; GreaterThan; LessThan;
                      GreaterThanOrEqual; LessThanOrEqual; In]
                   ∧ operator f ≠ Contains)
    (handle ["region"]
       (handle ["region"] (handle ["region"] [] ClickAdd)
          (Change 0 (OperatorField In)))
       (Change 0 (ValueField "a, b"))).
Proof.
  apply (operators_are_offered ["region"]).
  apply reachable_event; [apply reachable_event; [apply reachable_event|]|].
  - apply reachable_initial.
  - exact I.
  - split; [cbn; lia|]. unfold operatorOptions.
    rewrite !elem_of_cons. tauto.
  - split; [cbn; lia|exact I].
Defined.

End FilterConfiguratorFacts.

(** ** [types.ts] *)
Section TypesFacts.

(** C7.  The value of every member of the two enums, which is what is
    written to the wire, is the name of the member. *)
Theorem enum_values_are_member_names :
  (∀ a : AggregationType, a ∈ members ∧ memberValue a = memberName a)
  ∧ (∀ o : FilterOperator, o ∈ members ∧ memberValue o = memberName o)
  ∧ memberValue Sum = "Sum"
  ∧ memberValue GreaterThanOrEqual = "GreaterThanOrEqual".
Proof.
  repeat split; try (destruct a || destruct o); try reflexivity;
    cbn; rewrite !elem_of_cons; tauto.
Qed.

(** C3 as it is stated fails: two requests can agree on [rows],
    [columns], [values] and [filters] and still differ, so these four are
    not all the fields there are. *)
Lemma four_fields_counterexample :
  ¬ (∀ r1 r2 : PivotRequest, specView r1 = specView r2 → r1 = r2).
Proof.
  intros H.
  specialize (H (App.makeRequest "sales.csv" App.initial)
                (App.makeRequest "stock.csv" App.initial) eq_refl).
  discriminate H.
Qed.

(** C3, as the code has it.  A pivot request is made of five fields:
    [data_path], a string, then [rows], [columns], [values] and the
    optional [filters]; the request that [generatePivot] builds carries
    the selected file path in [data_path], the three configured lists, and
    the filters only when there is at least one. *)
Theorem PivotRequest_has_five_fields :
  (∀ r : PivotRequest,
     r = {| data_path := data_path r; rows := rows r; columns := columns r;
            values := values r; filters := filters r |})
  ∧ (∀ (path : string) (s : App.State),
       App.makeRequest path s
       = {| data_path := path;
            rows := App.rowFields s;
            columns := App.columnFields s;
            values := App.valueFields s;
            filters := match App.filters s with
                       | [] => None
                       | _ :: _ => Some (App.filters s)
                       end |}).
Proof.
  split.
  - by intros [].
  - intros path s. unfold App.makeRequest. by destruct (App.filters s).
Qed.

End TypesFacts.

(** ** [App]: validation and the outcome of [generatePivot] *)
Section AppFacts.
Import App.

Lemma generatePivot_begin_valid (s : State) (path : string) :
  filePath s = Some path → path ≠ EmptyString → valueFields s ≠ [] →
  generatePivot_begin s
  = (setError None (setIsLoading true s), Some (makeRequest path s)).
Proof.
  intros Hpath Hne Hvals. unfold generatePivot_begin. rewrite Hpath.
  destruct path as [|c path]; [done|].
  by destruct (valueFields s).
Qed.

(** The button that calls [generatePivot] can only be clicked when there
    is a value field. *)
Lemma generateEnabled_values (s : State) :
  generateEnabled s = true → valueFields s ≠ [] ∧ isLoading s = false.
Proof.
  unfold generateEnabled. intros H.
  apply andb_prop in H as [_ H]. apply negb_true_iff, orb_false_iff in H as [Hl Hv].
  split; [|done]. intros Hnil. by rewrite Hnil in Hv.
Qed.

(** C4 as it is stated fails: with no file selected, the error that an
    empty values list gets is the one about the file. *)
Lemma empty_values_error_counterexample :
  ¬ (∀ (backend : Backend) (s : State),
       valueFields s = [] →
       error (generatePivot backend s).1 = Some emptyValueFieldsMessage).
Proof.
  intros H.
  specialize (H (fun _ => Rejected (OtherValue "")) initial eq_refl).
  discriminate H.
Qed.

(** C4, as the code has it.  A call of [generatePivot] with an empty
    values list sends no request and only sets the error message: the
    message about the missing file when no file path is set, and the
    message about the empty value fields otherwise. *)
Theorem generatePivot_empty_values (backend : Backend) (s : State) :
  valueFields s = [] →
  generatePivot backend s
  = (setError
       (Some match filePath s with
             | None | Some EmptyString => selectFileMessage
             | Some _ => emptyValueFieldsMessage
             end) s,
     []).
Proof.
  intros Hvals. unfold generatePivot, generatePivot_begin. rewrite Hvals.
  by destruct (filePath s) as [[|c path]|].
Qed.

(** The theorem on the state right after a file was selected. *)
Lemma generatePivot_empty_values_witness :
  generatePivot (fun _ => Rejected (OtherValue ""))
    (handleFileSelected "sales.csv" ["region"; "amount"] initial)
  = (setError (Some emptyValueFieldsMessage)
       (handleFileSelected "sales.csv" ["region"; "amount"] initial),
     []).
Proof.
  apply (generatePivot_empty_values (fun _ => Rejected (OtherValue ""))
           (handleFileSelected "sales.csv" ["region"; "amount"] initial)).
  reflexivity.
Defined.

(** A call with no value field is one the button never makes, since it is
    disabled then.  Such a call leaves the result where it was. *)
Lemma call_without_values_keeps_result (backend : Backend) (s : State) :
  valueFields s = [] →
  generateEnabled s = false
  ∧ pivotResult (generatePivot backend s).1 = pivotResult s.
Proof.
  intros Hvals. split.
  - unfold generateEnabled. rewrite Hvals. cbn. by rewrite orb_true_r, andb_false_r.
  - unfold generatePivot, generatePivot_begin. rewrite Hvals.
    by destruct (filePath s) as [[|c path]|].
Qed.

(** A call of [generatePivot] that passes both checks (a file path is set
    and there is a value field) sends one request, and ends not loading in
    one of two states: the backend resolved, the result is stored and the
    error is null; or the backend rejected, the error is set and the result
    is null. *)
Lemma generatePivot_all_or_nothing (backend : Backend) (s : State) (path : string) :
  filePath s = Some path → path ≠ EmptyString → valueFields s ≠ [] →
  let request := makeRequest path s in
  let s' := (generatePivot backend s).1 in
  (generatePivot backend s).2 = [request]
  ∧ isLoading s' = false
  ∧ match backend request with
    | Resolved r => pivotResult s' = Some r ∧ error s' = None
    | Rejected err =>
        pivotResult s' = None
        ∧ error s' = Some ("Error generating pivot: " +:+ errorText err)
    end
  ∧ (fullySucceeded s' ∨ fullyRejected s').
Proof.
  intros Hpath Hne Hvals request s'. subst s'.
  unfold generatePivot. rewrite (generatePivot_begin_valid s path) by done.
  fold request. cbn [fst snd].
  split; [done|]. split; [done|].
  unfold fullySucceeded, fullyRejected.
  destruct (backend request) as [r|err]; cbn; eauto 10.
Qed.

(** The lemma on a configured state and a backend that resolves. *)
Lemma generatePivot_all_or_nothing_witness :
  fullySucceeded
    (generatePivot
       (fun _ => Resolved {| data := []; column_headers := []; row_headers := ["region"] |})
       (handleConfigChange ["region"] [] [ {| field := "amount"; aggregation := Sum |} ]
          (handleFileSelected "sales.csv" ["region"; "amount"] initial))).1
  ∨ fullyRejected
    (generatePivot
       (fun _ => Resolved {| data := []; column_headers := []; row_headers := ["region"] |})
       (handleConfigChange ["region"] [] [ {| field := "amount"; aggregation := Sum |} ]
          (handleFileSelected "sales.csv" ["region"; "amount"] initial))).1.
Proof.
  apply (generatePivot_all_or_nothing
           (fun _ => Resolved {| data := []; column_headers := []; row_headers := ["region"] |})
           (handleConfigChange ["region"] [] [ {| field := "amount"; aggregation := Sum |} ]
              (handleFileSelected "sales.csv" ["region"; "amount"] initial))
           "sales.csv").
  - reflexivity.
  - discriminate.
  - discriminate.
Defined.

(** The same outcome when the configuration or the filters change while
    the request is pending: those handlers leave the error and the result
    alone, and the part of [generatePivot] after the [await] only needs the
    error to be null still. *)
Lemma pending_changes_keep_error (s : State) (rws cols : list string)
    (vals : list ValueWithAggregation) (newFilters : list FilterCondition) :
  error (handleConfigChange rws cols vals s) = error s
  ∧ error (handleFiltersChange newFilters s) = error s.
Proof. done. Qed.

Lemma generatePivot_settle_outcome (outcome : Settled) (s : State) :
  error s = None →
  let s' := generatePivot_settle outcome s in
  isLoading s' = false ∧ (fullySucceeded s' ∨ fullyRejected s').
Proof.
  intros Herr s'. subst s'. split; [done|].
  unfold fullySucceeded, fullyRejected.
  destruct outcome as [r|err]; cbn; eauto 10.
Qed.

End AppFacts.

(** ** [PivotTable]: when rendering throws *)
Section PivotTableFacts.
Import PivotTable.

Lemma firstHeaderLevelMap_defined {B : Type} (r : PivotResult)
    (f : string → nat → B) (level : list string) (levels : list (list string)) :
  column_headers r = level :: levels →
  firstHeaderLevelMap r f = Ok (imap (fun index header => f header index) level).
Proof. intros H. unfold firstHeaderLevelMap. by rewrite H. Qed.

Lemma body_rows_defined (r : PivotResult) (level : list string)
    (levels : list (list string)) (records : list JSObject) :
  column_headers r = level :: levels →
  ∃ tbody, mapThrowing (bodyRow r) records = Ok tbody.
Proof.
  intros H. induction records as [|row records [tbody IH]]; [by eexists|].
  cbn [mapThrowing]. unfold bodyRow at 1.
  rewrite (firstHeaderLevelMap_defined r _ level levels H), IH. by eexists.
Qed.

(** The table of a result is rendered unless the result has records
    and no level of column headers, and in that case it throws. *)
Lemma table_throws_iff (r : PivotResult) :
  (∃ e, table r = Throw e) ↔ column_headers r = [] ∧ data r ≠ [].
Proof.
  unfold table, headerRow. split.
  - intros [e He].
    destruct (column_headers r) as [|level levels] eqn:Hch.
    + split; [done|]. intros Hdata. rewrite Hdata in He. discriminate He.
    + exfalso. cbn [length Nat.ltb Nat.leb] in He.
      rewrite (firstHeaderLevelMap_defined r _ level levels Hch) in He.
      destruct (body_rows_defined r level levels (data r) Hch) as [tbody Hb].
      rewrite Hb in He. discriminate He.
  - intros [Hch Hdata]. rewrite Hch. cbn [length Nat.ltb Nat.leb].
    destruct (data r) as [|row records]; [done|].
    cbn [mapThrowing]. unfold bodyRow at 1, firstHeaderLevelMap.
    rewrite Hch. by eexists.
Qed.

(** C8 at the failing input: a result with one record and an empty
    [column_headers], which is what a request without column fields gets.
    The body row reads [column_headers[0]], finds it undefined, and
    rendering ends in a [TypeError]. *)
Theorem PivotTable_throws_without_column_headers :
  PivotTable
    (Some {| data := [ [("region", VString "east");
                        ("amount_Sum", VNumber (JS.Finite false 30 0))] ];
             column_headers := [];
             row_headers := ["region"] |})
    false
  = Throw "TypeError".
Proof. reflexivity. Qed.

(** With a first level of column headers, the same record is rendered. *)
Example PivotTable_renders_with_column_headers :
  PivotTable
    (Some {| data := [ [("region", VString "east");
                        ("amount_Sum", VNumber (JS.Finite false 30 0))] ];
             column_headers := [ ["amount_Sum"] ];
             row_headers := ["region"] |})
    false
  = Ok (Table
          [tr None [th (Some 1) Empty; th None (Text "amount_Sum")]]
          [tr (Some [Some (VString "east")])
              [th None (Raw (Some (VString "east")));
               td (Localized (JS.Finite false 30 0))]]).
Proof. reflexivity. Qed.

End PivotTableFacts.

(** ** [FilterConfigurator]: adding, removing and updating conditions *)
Section FilterConfiguratorLists.
Import FilterConfigurator.

Lemma filterWithIndex_past {A : Type} (index from : nat) (l : list A) :
  index < from →
  filterWithIndex (fun _ i => negb (Nat.eqb i index)) from l = l.
Proof.
  revert from. induction l as [|x l IH]; intros from Hlt; [done|].
  cbn. rewrite (proj2 (Nat.eqb_neq from index)) by lia. cbn.
  f_equal. apply IH. lia.
Qed.

Lemma filterWithIndex_at {A : Type} (index from : nat) (l : list A) :
  from ≤ index →
  filterWithIndex (fun _ i => negb (Nat.eqb i index)) from l
  = take (index - from) l ++ drop (S (index - from)) l.
Proof.
  revert from. induction l as [|x l IH]; intros from Hle.
  - by rewrite take_nil, drop_nil.
  - cbn [filterWithIndex]. destruct (Nat.eqb from index) eqn:Heq.
    + apply Nat.eqb_eq in Heq as ->. cbn [negb].
      rewrite Nat.sub_diag. cbn. rewrite drop_0.
      apply filterWithIndex_past. lia.
    + apply Nat.eqb_neq in Heq. cbn [negb].
      replace (index - from) with (S (index - S from)) by lia.
      cbn. f_equal. apply IH. lia.
Qed.

(** [removeFilter] takes out the condition at the index and keeps all the
    others in their order; past the end of the list it changes nothing. *)
Theorem removeFilter_removes_index (filters : list FilterCondition) (index : nat) :
  removeFilter filters index = take index filters ++ drop (S index) filters
  ∧ (∀ j, j < index → removeFilter filters index !! j = filters !! j)
  ∧ (∀ j, index ≤ j → removeFilter filters index !! j = filters !! S j)
  ∧ (length filters ≤ index → removeFilter filters index = filters).
Proof.
  assert (Heq : removeFilter filters index
                = take index filters ++ drop (S index) filters).
  { unfold removeFilter. rewrite filterWithIndex_at by lia. by rewrite Nat.sub_0_r. }
  split; [exact Heq|]. rewrite Heq. repeat split.
  - intros j Hj. destruct (decide (index ≤ length filters)).
    + rewrite lookup_app_l by (rewrite length_take; lia).
      by rewrite lookup_take_lt.
    + rewrite take_ge, drop_ge, app_nil_r by lia. done.
  - intros j Hj. destruct (decide (index ≤ length filters)).
    + rewrite lookup_app_r by (rewrite length_take; lia).
      rewrite length_take, lookup_drop. f_equal. lia.
    + rewrite take_ge, drop_ge, app_nil_r by lia.
      rewrite !lookup_ge_None_2 by lia. done.
  - intros Hge. by rewrite take_ge, drop_ge, app_nil_r by lia.
Qed.

(** Removing the condition that [addFilter] has just added gives the list
    back, whether there are columns or not. *)
Theorem addFilter_then_removeFilter (columns : list string)
    (filters : list FilterCondition) :
  removeFilter (addFilter columns filters) (length filters) = filters.
Proof.
  unfold removeFilter. rewrite filterWithIndex_at by lia. rewrite Nat.sub_0_r.
  unfold addFilter. destruct columns as [|first rest].
  - by rewrite take_ge, drop_ge, app_nil_r by lia.
  - rewrite take_app_length, drop_ge, app_nil_r; [done|].
    rewrite length_app. cbn. lia.
Qed.

(** [updateFilter] throws exactly when the index is past the end of the
    list, whatever the field and the text. *)
Theorem updateFilter_throws_iff (filters : list FilterCondition) (index : nat)
    (fv : FieldValue) :
  (∃ e, updateFilter filters index fv = Throw e) ↔ length filters ≤ index.
Proof.
  unfold updateFilter. split.
  - intros [e He]. destruct (filters !! index) eqn:Hlook; [discriminate He|].
    by apply lookup_ge_None_1.
  - intros Hge. rewrite lookup_ge_None_2 by done. by eexists.
Qed.

(** An update keeps the number of conditions, leaves every other
    condition as it was, and changes only the field it is given: a new
    column or a new operator leaves the stored value untouched (it is not
    coerced again), and a new value leaves the column and the operator. *)
Theorem updateFilter_changes_one_field (filters updated : list FilterCondition)
    (index : nat) (fv : FieldValue) :
  updateFilter filters index fv = Ok updated →
  length updated = length filters
  ∧ (∀ j, j ≠ index → updated !! j = filters !! j)
  ∧ ∃ target new,
      filters !! index = Some target ∧ updated !! index = Some new
      ∧ match fv with
        | OperatorField v =>
            operator new = v ∧ column new = column target ∧ value new = value target
        | ColumnField v =>
            column new = v ∧ operator new = operator target ∧ value new = value target
        | ValueField _ =>
            column new = column target ∧ operator new = operator target
        end.
Proof.
  unfold updateFilter. intros Hupd.
  destruct (filters !! index) as [target|] eqn:Hlook; [|discriminate Hupd].
  injection Hupd as <-.
  pose proof (lookup_lt_Some _ _ _ Hlook) as Hlt.
  split; [apply length_insert|]. split.
  - intros j Hj. by apply list_lookup_insert_ne.
  - eexists target, _. split; [done|]. split; [by apply list_lookup_insert_eq|].
    by destruct fv.
Qed.

(** The theorem on a list of two conditions, the second of which gets a
    new operator. *)
Lemma updateFilter_changes_one_field_witness :
  length [ {| column := "region"; operator := Equal; value := VString "east" |};
           {| column := "amount"; operator := In; value := VString "7" |} ] = 2.
Proof.
  apply (updateFilter_changes_one_field
           [ {| column := "region"; operator := Equal; value := VString "east" |};
             {| column := "amount"; operator := Equal; value := VString "7" |} ]
           _ 1 (OperatorField In)).
  reflexivity.
Defined.

End FilterConfiguratorLists.

(** ** [FilterConfigurator]: more on the coercion of the value text *)
Section FilterConfiguratorTexts.
Import FilterConfigurator.

(** The lemma on the list under [In] at the text [east, west]. *)
Lemma In_list_elements_coerced_witness :
  updateFilter [ {| column := "region"; operator := In; value := VString "" |} ]
    0 (ValueField "east, west")
  = Ok [ {| column := "region"; operator := In;
            value := VArray [VString "east"; VString "west"] |} ].
Proof.
  apply (In_list_elements_coerced
           [ {| column := "region"; operator := In; value := VString "" |} ]
           0 {| column := "region"; operator := In; value := VString "" |}
           "east, west" "east, west"); reflexivity.
Defined.

Lemma whitespace_toLowerCaseChar (c : ascii) :
  JS.isStrWhiteSpaceChar c = true → JS.toLowerCaseChar c = c.
Proof.
  destruct c as [[] [] [] [] [] [] [] []]; vm_compute; intros H;
    first [reflexivity | discriminate H].
Qed.

Lemma whitespace_not_comma (c : ascii) :
  JS.isStrWhiteSpaceChar c = true → Ascii.eqb c "," = false.
Proof.
  destruct c as [[] [] [] [] [] [] [] []]; vm_compute; intros H;
    first [reflexivity | discriminate H].
Qed.

Lemma trim_empty_trimStart (s : string) :
  JS.trim s = EmptyString → JS.trimStart s = EmptyString.
Proof.
  unfold JS.trim. intros H.
  destruct (trimStart_head s) as [Hs|(c & t & Hs & Hc)]; [done|].
  rewrite Hs in H. destruct (trimEnd_keeps_head c t Hc) as [t' Ht].
  rewrite Ht in H. discriminate H.
Qed.

Lemma blank_head (c : ascii) (s : string) :
  JS.trimStart (String c s) = EmptyString →
  JS.isStrWhiteSpaceChar c = true ∧ JS.trimStart s = EmptyString.
Proof. cbn. by destruct (JS.isStrWhiteSpaceChar c). Qed.

Lemma blank_split (s : string) :
  JS.trimStart s = EmptyString → JS.split "," s = [s].
Proof.
  induction s as [|c s IH]; [done|].
  intros H. apply blank_head in H as [Hc Hs].
  cbn [JS.split]. rewrite (whitespace_not_comma c Hc), (IH Hs). done.
Qed.

Lemma blank_not_literal (s literal : string) (c : ascii) :
  JS.isStrWhiteSpaceChar c = false →
  JS.trimStart s = EmptyString →
  String.eqb (JS.toLowerCase s) (String c literal) = false.
Proof.
  intros Hc Hs. destruct s as [|d s]; [done|].
  apply blank_head in Hs as [Hd _].
  apply String.eqb_neq. cbn. rewrite (whitespace_toLowerCaseChar d Hd).
  intros Heq. injection Heq as -> _. congruence.
Qed.

Lemma blank_specCoercion (s : string) :
  JS.trim s = EmptyString → specCoercion s = VString s.
Proof.
  intros Hs. unfold specCoercion. rewrite Hs. cbn [String.eqb negb].
  rewrite andb_false_r.
  apply trim_empty_trimStart in Hs.
  by rewrite (blank_not_literal s "rue" "t" eq_refl Hs),
    (blank_not_literal s "alse" "f" eq_refl Hs).
Qed.

(** A blank text (empty, or white space only) is never stored as a
    number, although [Number] takes it for 0: it is stored as the text
    itself, and under [In] as the list of one empty string. *)
Theorem blank_text_is_not_a_number (filters : list FilterCondition) (index : nat)
    (target : FilterCondition) (text : string) :
  filters !! index = Some target →
  JS.trim text = EmptyString →
  JS.Number text = JS.Finite false 0 0
  ∧ updateFilter filters index (ValueField text)
    = Ok (<[index :=
             {| column := column target; operator := operator target;
                value := if bool_decide (operator target = In)
                         then VArray [VString ""] else VString text |}]> filters).
Proof.
  intros Hlook Hblank. split.
  - unfold JS.Number. by rewrite Hblank.
  - rewrite (updateFilter_value _ _ _ _ Hlook), (blank_specCoercion _ Hblank).
    rewrite (blank_split _ (trim_empty_trimStart _ Hblank)). cbn [map].
    rewrite Hblank. done.
Qed.

(** The theorem on a text of three spaces. *)
Lemma blank_text_is_not_a_number_witness :
  updateFilter [ {| column := "region"; operator := Equal; value := VString "x" |} ]
    0 (ValueField "   ")
  = Ok [ {| column := "region"; operator := Equal; value := VString "   " |} ].
Proof.
  apply (blank_text_is_not_a_number
           [ {| column := "region"; operator := Equal; value := VString "x" |} ]
           0 {| column := "region"; operator := Equal; value := VString "x" |}
           "   "); reflexivity.
Defined.

(** Typing a value and then choosing [In] leaves the value a scalar: the
    operator control does not coerce the stored value again, so a condition
    with operator [In] and a value that is no list can be built for every
    text. *)
Theorem switching_to_In_keeps_scalar (filters : list FilterCondition) (index : nat)
    (target : FilterCondition) (text : string) :
  filters !! index = Some target →
  operator target ≠ In →
  ∃ typed switched,
    updateFilter filters index (ValueField text) = Ok typed
    ∧ updateFilter typed index (OperatorField In) = Ok switched
    ∧ switched !! index
      = Some {| column := column target; operator := In; value := specCoercion text |}
    ∧ isArray (specCoercion text) = false.
Proof.
  intros Hlook Hop.
  pose proof (lookup_lt_Some _ _ _ Hlook) as Hlt.
  assert (Hscalar : match specCoercion text with
                    | VString _ =>
                        if bool_decide (operator target = In)
                        then VArray (map specCoercion (map JS.trim (JS.split "," text)))
                        else VString text
                    | v => v
                    end = specCoercion text).
  { rewrite bool_decide_eq_false_2 by done.
    destruct (specCoercion text) eqn:Hspec; try done.
    by rewrite (specCoercion_string _ _ Hspec). }
  eexists _, _. split; [by apply updateFilter_value|]. rewrite Hscalar.
  unfold updateFilter at 1. rewrite list_lookup_insert_eq by done. cbn.
  split; [done|]. split.
  - rewrite list_lookup_insert_eq; [done|]. by rewrite length_insert.
  - unfold specCoercion. by repeat case_match.
Qed.

(** The theorem on a condition with operator [Equal] and the text [a,b]. *)
Lemma switching_to_In_keeps_scalar_witness :
  isArray (specCoercion "a,b") = false.
Proof.
  destruct (switching_to_In_keeps_scalar
              [ {| column := "region"; operator := Equal; value := VString "" |} ]
              0 _ "a,b" eq_refl) as (typed & switched & _ & _ & _ & H).
  - discriminate.
  - exact H.
Defined.

(** *** The boolean literals in any case *)

Ltac lower_case_letter c :=
  destruct c as [[] [] [] [] [] [] [] []]; vm_compute; intros H;
  first [discriminate H | left; reflexivity | right; reflexivity].

Lemma lower_t (c : ascii) : JS.toLowerCaseChar c = "t"%char → c = "t"%char ∨ c = "T"%char.
Proof. lower_case_letter c. Qed.
Lemma lower_r (c : ascii) : JS.toLowerCaseChar c = "r"%char → c = "r"%char ∨ c = "R"%char.
Proof. lower_case_letter c. Qed.
Lemma lower_u (c : ascii) : JS.toLowerCaseChar c = "u"%char → c = "u"%char ∨ c = "U"%char.
Proof. lower_case_letter c. Qed.
Lemma lower_e (c : ascii) : JS.toLowerCaseChar c = "e"%char → c = "e"%char ∨ c = "E"%char.
Proof. lower_case_letter c. Qed.
Lemma lower_f (c : ascii) : JS.toLowerCaseChar c = "f"%char → c = "f"%char ∨ c = "F"%char.
Proof. lower_case_letter c. Qed.
Lemma lower_a (c : ascii) : JS.toLowerCaseChar c = "a"%char → c = "a"%char ∨ c = "A"%char.
Proof. lower_case_letter c. Qed.
Lemma lower_l (c : ascii) : JS.toLowerCaseChar c = "l"%char → c = "l"%char ∨ c = "L"%char.
Proof. lower_case_letter c. Qed.
Lemma lower_s (c : ascii) : JS.toLowerCaseChar c = "s"%char → c = "s"%char ∨ c = "S"%char.
Proof. lower_case_letter c. Qed.

Lemma true_literal_coercion (text : string) :
  JS.toLowerCase text = "true" → specCoercion text = VBoolean true.
Proof.
  destruct text as [|c1 [|c2 [|c3 [|c4 [|c5 rest]]]]]; try discriminate.
  cbn. intros H. injection H as H1 H2 H3 H4.
  destruct (lower_t _ H1) as [-> | ->], (lower_r _ H2) as [-> | ->],
    (lower_u _ H3) as [-> | ->], (lower_e _ H4) as [-> | ->]; reflexivity.
Qed.

Lemma false_literal_coercion (text : string) :
  JS.toLowerCase text = "false" → specCoercion text = VBoolean false.
Proof.
  destruct text as [|c1 [|c2 [|c3 [|c4 [|c5 [|c6 rest]]]]]]; try discriminate.
  cbn. intros H. injection H as H1 H2 H3 H4 H5.
  destruct (lower_f _ H1) as [-> | ->], (lower_a _ H2) as [-> | ->],
    (lower_l _ H3) as [-> | ->], (lower_s _ H4) as [-> | ->],
    (lower_e _ H5) as [-> | ->]; reflexivity.
Qed.

(** A text that is [true] or [false] in any mix of upper and lower case
    is stored as that boolean whatever the operator is, also under [In]:
    no such text is taken for a number first, and none reaches the list
    branch. *)
Theorem boolean_literal_in_any_case (filters : list FilterCondition) (index : nat)
    (target : FilterCondition) (text : string) (b : bool) :
  filters !! index = Some target →
  JS.toLowerCase text = (if b then "true" else "false") →
  updateFilter filters index (ValueField text)
  = Ok (<[index := {| column := column target; operator := operator target;
                      value := VBoolean b |}]> filters).
Proof.
  intros Hlook Hlit. rewrite (updateFilter_value _ _ _ _ Hlook).
  destruct b.
  - by rewrite (true_literal_coercion _ Hlit).
  - by rewrite (false_literal_coercion _ Hlit).
Qed.

(** The theorem on the text [TrUe] under the operator [In]. *)
Lemma boolean_literal_in_any_case_witness :
  updateFilter [ {| column := "active"; operator := In; value := VString "" |} ]
    0 (ValueField "TrUe")
  = Ok [ {| column := "active"; operator := In; value := VBoolean true |} ].
Proof.
  apply (boolean_literal_in_any_case
           [ {| column := "active"; operator := In; value := VString "" |} ]
           0 {| column := "active"; operator := In; value := VString "" |}
           "TrUe" true); reflexivity.
Defined.

End FilterConfiguratorTexts.

(** ** [PivotConfigurator]: what the controls show and how changes compose *)
Section PivotConfiguratorControls.
Import PivotConfigurator.

Lemma filter_removed_twice (fld : string) (l : list string) :
  filter (fun f => f ≠ fld) (filter (fun f => f ≠ fld) l) = filter (fun f => f ≠ fld) l.
Proof.
  induction l as [|x l IH]; [done|].
  rewrite (filter_cons _ x l). destruct (decide (x ≠ fld)); [|done].
  rewrite filter_cons. destruct (decide (x ≠ fld)); [|done]. by rewrite IH.
Qed.

Lemma filter_removed_snoc (fld : string) (l : list string) :
  filter (fun f => f ≠ fld) (l ++ [fld]) = filter (fun f => f ≠ fld) l.
Proof.
  rewrite filter_app, filter_cons. destruct (decide (fld ≠ fld)); [done|].
  by rewrite ?filter_nil, app_nil_r.
Qed.

Lemma values_removed_twice (fld : string) (l : list ValueWithAggregation) :
  filter (fun v => field v ≠ fld) (filter (fun v => field v ≠ fld) l)
  = filter (fun v => field v ≠ fld) l.
Proof.
  induction l as [|x l IH]; [done|].
  rewrite (filter_cons _ x l). destruct (decide (field x ≠ fld)); [|done].
  rewrite filter_cons. destruct (decide (field x ≠ fld)); [|done]. by rewrite IH.
Qed.

Lemma values_removed_snoc (fld : string) (agg : AggregationType)
    (l : list ValueWithAggregation) :
  filter (fun v => field v ≠ fld) (l ++ [ {| field := fld; aggregation := agg |} ])
  = filter (fun v => field v ≠ fld) l.
Proof.
  rewrite filter_app, filter_cons. cbn. destruct (decide (fld ≠ fld)); [done|].
  by rewrite ?filter_nil, app_nil_r.
Qed.

(** The last assignment of a field decides: assigning a field and then
    assigning it again gives the state of the second assignment alone, so
    an assignment made twice is the assignment made once. *)
Theorem last_dimension_change_wins (s : State) (fld : string) (d1 d2 : Dimension) :
  handleDimensionChange (handleDimensionChange s fld d1) fld d2
  = handleDimensionChange s fld d2.
Proof.
  destruct d1, d2; unfold handleDimensionChange; cbn;
    rewrite ?filter_removed_snoc, ?values_removed_snoc,
      ?filter_removed_twice, ?values_removed_twice; reflexivity.
Qed.

Lemma existsb_removed (fld : string) (vs : list ValueWithAggregation) :
  existsb (fun v => bool_decide (field v = fld)) (filter (fun v => field v ≠ fld) vs)
  = false.
Proof.
  induction vs as [|v vs IH]; [done|].
  rewrite filter_cons. destruct (decide (field v ≠ fld)); [|done].
  cbn. rewrite IH. by rewrite bool_decide_eq_false_2.
Qed.

Lemma existsb_kept (fld other : string) (vs : list ValueWithAggregation) :
  other ≠ fld →
  existsb (fun v => bool_decide (field v = other)) (filter (fun v => field v ≠ fld) vs)
  = existsb (fun v => bool_decide (field v = other)) vs.
Proof.
  intros Hne. induction vs as [|v vs IH]; [done|].
  rewrite filter_cons. destruct (decide (field v ≠ fld)) as [|Heq]; cbn.
  - by rewrite IH.
  - rewrite IH. rewrite bool_decide_eq_false_2; [done|].
    intros Hv. apply Heq. congruence.
Qed.

Lemma elem_of_kept (fld other : string) (l : list string) :
  other ≠ fld →
  bool_decide (other ∈ filter (fun f => f ≠ fld) l) = bool_decide (other ∈ l).
Proof.
  intros Hne. apply bool_decide_ext. rewrite list_elem_of_filter. tauto.
Qed.

Lemma elem_of_kept_snoc (fld other : string) (l : list string) :
  other ≠ fld →
  bool_decide (other ∈ filter (fun f => f ≠ fld) l ++ [fld]) = bool_decide (other ∈ l).
Proof.
  intros Hne. apply bool_decide_ext.
  rewrite elem_of_app, list_elem_of_filter, list_elem_of_singleton. tauto.
Qed.

Lemma find_past_absent {A : Type} (p : A → bool) (l1 l2 : list A) :
  List.find p l1 = None → List.find p (l1 ++ l2) = List.find p l2.
Proof.
  induction l1 as [|x l1 IH]; [done|].
  cbn. by destruct (p x).
Qed.

(** After a change of dimension the control of the field shows the
    dimension that was chosen, the aggregation control of a new value field
    shows [Sum], and the controls of all other fields show what they showed
    before. *)
Theorem dimension_control_shows_choice (s : State) (fld : string) (d : Dimension) :
  getDimensionForField (handleDimensionChange s fld d) fld = d
  ∧ selectedAggregation (handleDimensionChange s fld d) fld
    = match d with Values => Some Sum | _ => None end
  ∧ (∀ other, other ≠ fld →
       getDimensionForField (handleDimensionChange s fld d) other
       = getDimensionForField s other).
Proof.
  assert (Hrow : ∀ l : list string,
            bool_decide (fld ∈ filter (fun f => f ≠ fld) l) = false).
  { intros l. apply bool_decide_eq_false_2, removed_field_absent. }
  assert (Hsnoc : ∀ l : list string, bool_decide (fld ∈ l ++ [fld]) = true).
  { intros l. apply bool_decide_eq_true_2, elem_of_app. right.
    by apply list_elem_of_singleton. }
  assert (Hfind : ∀ vs : list ValueWithAggregation,
            List.find (fun v => bool_decide (field v = fld))
                          (filter (fun v => field v ≠ fld) vs) = None).
  { intros vs. induction vs as [|v vs IH]; [done|].
    rewrite filter_cons. destruct (decide (field v ≠ fld)); [|done].
    cbn. by rewrite bool_decide_eq_false_2. }
  split; [|split].
  - unfold getDimensionForField.
    destruct d; cbn; rewrite ?Hsnoc, ?Hrow, ?existsb_app, ?existsb_removed; try done.
    cbn. by rewrite bool_decide_eq_true_2.
  - unfold selectedAggregation.
    destruct d; cbn; rewrite ?Hfind; try done.
    rewrite find_past_absent by apply Hfind. cbn. by rewrite bool_decide_eq_true_2.
  - intros other Hne. unfold getDimensionForField.
    destruct d; cbn;
      rewrite ?elem_of_kept_snoc, ?elem_of_kept, ?existsb_app, ?existsb_kept by done;
      try done.
    cbn. rewrite (bool_decide_eq_false_2 (fld = other)) by congruence.
    by rewrite !orb_false_r.
Qed.

Lemma find_after_aggregation_change (fld other : string) (agg : AggregationType)
    (vs : list ValueWithAggregation) :
  aggregation <$> List.find (fun v => bool_decide (field v = other))
    (map (fun v => if bool_decide (field v = fld)
                   then {| field := field v; aggregation := agg |} else v) vs)
  = (fun old => if bool_decide (other = fld) then agg else old)
    <$> (aggregation <$> List.find (fun v => bool_decide (field v = other)) vs).
Proof.
  induction vs as [|v vs IH]; [done|].
  cbn [map List.find].
  destruct (bool_decide (field v = fld)) eqn:Hf; cbn [field].
  - destruct (bool_decide (field v = other)) eqn:Ho; [|exact IH].
    cbn. apply bool_decide_eq_true_1 in Hf, Ho.
    by rewrite bool_decide_eq_true_2 by congruence.
  - destruct (bool_decide (field v = other)) eqn:Ho; [|exact IH].
    cbn. apply bool_decide_eq_false_1 in Hf. apply bool_decide_eq_true_1 in Ho.
    by rewrite bool_decide_eq_false_2 by congruence.
Qed.

Lemma aggregation_change_absent (fld : string) (agg : AggregationType)
    (vs : list ValueWithAggregation) :
  List.find (fun v => bool_decide (field v = fld)) vs = None →
  map (fun v => if bool_decide (field v = fld)
                then {| field := field v; aggregation := agg |} else v) vs = vs.
Proof.
  induction vs as [|v vs IH]; [done|].
  cbn. destruct (bool_decide (field v = fld)); [done|].
  intros H. by rewrite IH.
Qed.

Lemma existsb_after_aggregation_change (fld other : string) (agg : AggregationType)
    (vs : list ValueWithAggregation) :
  existsb (fun v => bool_decide (field v = other))
    (map (fun v => if bool_decide (field v = fld)
                   then {| field := field v; aggregation := agg |} else v) vs)
  = existsb (fun v => bool_decide (field v = other)) vs.
Proof.
  induction vs as [|v vs IH]; [done|].
  cbn [map existsb]. rewrite IH.
  by destruct (bool_decide (field v = fld)).
Qed.

(** After a change of aggregation the aggregation control of the field
    shows the new aggregation if the field is a value field, every other
    aggregation control and every dimension control shows what it showed
    before, and for a field that is no value field nothing changes at
    all. *)
Theorem aggregation_control_shows_choice (s : State) (fld : string)
    (agg : AggregationType) :
  selectedAggregation (handleAggregationChange s fld agg) fld
  = (fun _ => agg) <$> selectedAggregation s fld
  ∧ (∀ other, other ≠ fld →
       selectedAggregation (handleAggregationChange s fld agg) other
       = selectedAggregation s other)
  ∧ (∀ other,
       getDimensionForField (handleAggregationChange s fld agg) other
       = getDimensionForField s other)
  ∧ (selectedAggregation s fld = None → handleAggregationChange s fld agg = s).
Proof.
  unfold selectedAggregation. repeat split.
  - cbn. rewrite find_after_aggregation_change.
    rewrite bool_decide_eq_true_2 by done.
    by destruct (List.find _ (valueFields s)).
  - intros other Hne. cbn. rewrite find_after_aggregation_change.
    rewrite bool_decide_eq_false_2 by done.
    by destruct (List.find _ (valueFields s)).
  - intros other. unfold getDimensionForField. cbn.
    by rewrite existsb_after_aggregation_change.
  - intros Hnone. destruct s as [rws cols vals]. cbn in *.
    unfold handleAggregationChange. cbn. f_equal.
    apply aggregation_change_absent.
    by destruct (List.find _ vals).
Qed.

End PivotConfiguratorControls.

(** ** [PivotConfigurator]: the states the controls can reach *)
Section PivotConfiguratorReach.
Import PivotConfigurator.

Lemma filter_removed_swap (f g : string) (l : list string) :
  filter (fun x => x ≠ g) (filter (fun x => x ≠ f) l)
  = filter (fun x => x ≠ f) (filter (fun x => x ≠ g) l).
Proof.
  induction l as [|x l IH]; [done|].
  rewrite !(filter_cons _ x l).
  destruct (decide (x ≠ f)), (decide (x ≠ g));
    rewrite ?filter_cons; repeat case_decide; try done; by rewrite IH.
Qed.

Lemma values_removed_swap (f g : string) (l : list ValueWithAggregation) :
  filter (fun v => field v ≠ g) (filter (fun v => field v ≠ f) l)
  = filter (fun v => field v ≠ f) (filter (fun v => field v ≠ g) l).
Proof.
  induction l as [|x l IH]; [done|].
  rewrite !(filter_cons _ x l).
  destruct (decide (field x ≠ f)), (decide (field x ≠ g));
    rewrite ?filter_cons; repeat case_decide; try done; by rewrite IH.
Qed.

Lemma filter_kept_snoc (f g : string) (l : list string) :
  f ≠ g → filter (fun x => x ≠ g) (l ++ [f]) = filter (fun x => x ≠ g) l ++ [f].
Proof.
  intros Hne. rewrite filter_app, filter_cons. by destruct (decide (f ≠ g)).
Qed.

Lemma values_kept_snoc (f g : string) (agg : AggregationType)
    (l : list ValueWithAggregation) :
  f ≠ g →
  filter (fun v => field v ≠ g) (l ++ [ {| field := f; aggregation := agg |} ])
  = filter (fun v => field v ≠ g) l ++ [ {| field := f; aggregation := agg |} ].
Proof.
  intros Hne. rewrite filter_app, filter_cons. cbn. by destruct (decide (f ≠ g)).
Qed.

(** Assigning two different fields to two different dimensions gives the
    same state in either order. *)
Theorem dimension_changes_commute (s : State) (f g : string) (d1 d2 : Dimension) :
  f ≠ g → d1 ≠ d2 →
  handleDimensionChange (handleDimensionChange s f d1) g d2
  = handleDimensionChange (handleDimensionChange s g d2) f d1.
Proof.
  intros Hfg Hd. assert (Hgf : g ≠ f) by congruence.
  destruct d1, d2; try done; unfold handleDimensionChange; cbn;
    rewrite ?filter_kept_snoc, ?values_kept_snoc by done;
    by rewrite (filter_removed_swap f g (rowFields s)),
         (filter_removed_swap f g (columnFields s)),
         (values_removed_swap f g (valueFields s)).
Qed.

(** The theorem on the initial state: [region] to the rows, [amount] to
    the values. *)
Lemma dimension_changes_commute_witness :
  handleDimensionChange (handleDimensionChange initial "region" Rows) "amount" Values
  = handleDimensionChange (handleDimensionChange initial "amount" Values) "region" Rows.
Proof.
  apply (dimension_changes_commute initial "region" "amount" Rows Values);
    discriminate.
Defined.

Lemma assigned_after_change (s : State) (fld other : string) (d : Dimension) :
  other ∈ assignedFields (handleDimensionChange s fld d) →
  other = fld ∨ other ∈ assignedFields s.
Proof.
  unfold assignedFields.
  destruct d; cbn; rewrite ?map_app, ?fields_of_filtered_values;
    rewrite ?elem_of_app, ?list_elem_of_filter; cbn;
    rewrite ?list_elem_of_singleton; tauto.
Qed.

Lemma handle_keeps_columns (columns : list string) (s : State) (e : Event) :
  rendered columns s e →
  (∀ f, f ∈ assignedFields s → f ∈ columns) →
  ∀ f, f ∈ assignedFields (handle s e) → f ∈ columns.
Proof.
  intros He Hs f Hf. destruct e as [fld d|fld agg]; cbn [handle] in Hf.
  - apply assigned_after_change in Hf as [->|Hf]; [exact He|by apply Hs].
  - rewrite handleAggregationChange_assigned in Hf. by apply Hs.
Qed.

Lemma handle_keeps_offered (columns : list string) (s : State) (e : Event) :
  rendered columns s e →
  Forall (fun v => aggregation v ∈ aggregationOptions) (valueFields s) →
  Forall (fun v => aggregation v ∈ aggregationOptions) (valueFields (handle s e)).
Proof.
  intros He Hs. destruct e as [fld d|fld agg]; cbn [handle].
  - assert (Hkept : Forall (fun v => aggregation v ∈ aggregationOptions)
                      (filter (fun v => field v ≠ fld) (valueFields s))).
    { apply Forall_forall. intros v Hv. apply list_elem_of_filter in Hv as [_ Hv].
      by apply (proj1 (Forall_forall _ _) Hs). }
    destruct d; cbn; try done.
    apply Forall_app. split; [done|]. repeat constructor.
  - destruct He as (_ & _ & Hagg). cbn.
    apply Forall_forall. intros v Hv.
    apply list_elem_of_fmap in Hv as (w & -> & Hw).
    destruct (bool_decide (field w = fld)); [exact Hagg|].
    by apply (proj1 (Forall_forall _ _) Hs).
Qed.

Lemma First_Last_not_offered (agg : AggregationType) :
  agg ∈ aggregationOptions → agg ≠ First ∧ agg ≠ Last.
Proof.
  unfold aggregationOptions. rewrite !elem_of_cons, elem_of_nil.
  intros H. split; intros ->; repeat destruct H as [H|H]; done.
Qed.

(** In every state the pivot configurator can reach through its rendered
    controls, every assigned field is one of the columns, no field is
    assigned twice, so that there are at most as many assignments as
    columns, and every aggregation is one of the eight the control offers:
    [First] and [Last] never occur. *)
Theorem configurator_reachable_states (columns : list string) (s : State) :
  reachable columns s →
  NoDup (assignedFields s)
  ∧ (∀ f, f ∈ assignedFields s → f ∈ columns)
  ∧ length (assignedFields s) ≤ length columns
  ∧ Forall (fun v => aggregation v ∈ aggregationOptions
                     ∧ aggregation v ≠ First ∧ aggregation v ≠ Last) (valueFields s).
Proof.
  intros Hreach.
  assert (H : NoDup (assignedFields s)
              ∧ (∀ f, f ∈ assignedFields s → f ∈ columns)
              ∧ Forall (fun v => aggregation v ∈ aggregationOptions) (valueFields s)).
  { induction Hreach as [|s e _ (IH1 & IH2 & IH3) He].
    - repeat split; [constructor| |constructor].
      intros f Hf. by apply elem_of_nil in Hf.
    - split; [by apply handle_exclusive|].
      split; [by apply (handle_keeps_columns columns)|].
      by apply (handle_keeps_offered columns). }
  destruct H as (Hnd & Hsub & Hoff).
  split; [done|]. split; [done|]. split.
  - apply submseteq_length, NoDup_submseteq; done.
  - eapply Forall_impl; [exact Hoff|].
    intros v Hv. cbn beta in Hv. split; [done|]. by apply First_Last_not_offered.
Qed.

(** The theorem on two columns: [amount] becomes a value field and its
    aggregation the mean. *)
Lemma configurator_reachable_states_witness :
  NoDup (assignedFields
           (handle (handle initial (DimensionChange "amount" Values))
                   (AggregationChange "amount" Mean))).
Proof.
  apply (configurator_reachable_states ["region"; "amount"]).
  apply reachable_event; [apply reachable_event; [apply reachable_initial|]|].
  - cbn. rewrite !elem_of_cons. tauto.
  - cbn. unfold aggregationOptions. rewrite !elem_of_cons.
    split; [tauto|]. split; [reflexivity|tauto].
Defined.

End PivotConfiguratorReach.

(** ** [App] and [FileSelector]: what a call leaves alone *)
Section AppCalls.
Import App.

(** [generatePivot] never changes the configuration: the file path, the
    columns, the three field lists and the filters are after the call what
    they were before, however the call ends.  It sends no request, or one
    request, built from the state it was called in, for a path that is not
    empty. *)
Theorem generatePivot_keeps_configuration (backend : Backend) (s : State) :
  let s' := (generatePivot backend s).1 in
  (filePath s' = filePath s ∧ columns s' = columns s
   ∧ rowFields s' = rowFields s ∧ columnFields s' = columnFields s
   ∧ valueFields s' = valueFields s ∧ filters s' = filters s)
  ∧ ((generatePivot backend s).2 = []
     ∨ ∃ path, filePath s = Some path ∧ path ≠ EmptyString
               ∧ (generatePivot backend s).2 = [makeRequest path s]).
Proof.
  unfold generatePivot, generatePivot_begin.
  destruct (filePath s) as [[|c path]|] eqn:Hpath; cbn; try (split; [done|by left]).
  destruct (valueFields s) as [|v vs] eqn:Hvals; cbn; [split; [done|by left]|].
  split.
  - by destruct (backend _).
  - right. by exists (String c path).
Qed.

(** [selectFile] calls [onFileSelected] exactly when the dialog gave one
    path that is not empty and the columns of that file could be read, and
    then with that path and those columns, and it clears its error.  When
    the dialog failed, or the reading of the columns of the selected path
    did, it does not call, and its error is the message of that very
    failure.  When it neither calls nor meets a failure, its error is what
    it was. *)
Theorem selectFile_notifies_iff (dialog : FileSelector.Promise FileSelector.Selected)
    (get_csv_columns : string → FileSelector.Promise (list string))
    (error : option string) (path : string) (cols : list string) :
  ((FileSelector.selectFile dialog get_csv_columns error).2 = Some (path, cols)
   ↔ dialog = FileSelector.Fulfilled (FileSelector.OnePath path)
     ∧ path ≠ EmptyString
     ∧ get_csv_columns path = FileSelector.Fulfilled cols)
  ∧ (is_Some (FileSelector.selectFile dialog get_csv_columns error).2 →
     (FileSelector.selectFile dialog get_csv_columns error).1 = None)
  ∧ (∀ err,
       (dialog = FileSelector.Failed err
        ∨ ∃ selected,
            dialog = FileSelector.Fulfilled (FileSelector.OnePath selected)
            ∧ selected ≠ EmptyString
            ∧ get_csv_columns selected = FileSelector.Failed err) →
       FileSelector.selectFile dialog get_csv_columns error
       = (Some ("Error loading file: " +:+ errorText err), None))
  ∧ ((FileSelector.selectFile dialog get_csv_columns error).2 = None →
     (∀ err,
        ¬ (dialog = FileSelector.Failed err
           ∨ ∃ selected,
               dialog = FileSelector.Fulfilled (FileSelector.OnePath selected)
               ∧ selected ≠ EmptyString
               ∧ get_csv_columns selected = FileSelector.Failed err)) →
     (FileSelector.selectFile dialog get_csv_columns error).1 = error).
Proof.
  split; [|split; [|split]].
  - unfold FileSelector.selectFile.
    destruct dialog as [[|[|c selected]|paths]|err]; cbn.
    + split; [done|by intros (? & _)].
    + split; [done|intros (Heq & Hne & _); congruence].
    + destruct (get_csv_columns (String c selected)) as [columns|err] eqn:Hcols; cbn.
      * split.
        -- intros Heq. injection Heq as <- <-. by rewrite Hcols.
        -- intros (Heq & _ & Hget). injection Heq as <-. rewrite Hcols in Hget.
           by injection Hget as <-.
      * split; [done|].
        intros (Heq & _ & Hget). injection Heq as <-. congruence.
    + split; [done|by intros (? & _)].
    + split; [done|by intros (? & _)].
  - unfold FileSelector.selectFile.
    destruct dialog as [[|[|c selected]|paths]|err]; cbn; try by intros [].
    destruct (get_csv_columns (String c selected)); cbn; [done|by intros []].
  - intros err [->|(selected & -> & Hne & Hget)]; [done|].
    unfold FileSelector.selectFile. destruct selected as [|c selected]; [done|].
    by rewrite Hget.
  - unfold FileSelector.selectFile.
    destruct dialog as [[|[|c selected]|paths]|err]; cbn; try done.
    + destruct (get_csv_columns (String c selected)) as [columns|err] eqn:Hcols;
        cbn; [done|].
      intros _ Hnone. exfalso. apply (Hnone err). right.
      by exists (String c selected).
    + intros _ Hnone. exfalso. apply (Hnone err). by left.
Qed.

End AppCalls.

(** ** [PivotTable]: what is rendered *)
Section PivotTableRows.
Import PivotTable.

Lemma body_rows_explicit (r : PivotResult) (level : list string)
    (levels : list (list string)) (records : list JSObject) :
  column_headers r = level :: levels →
  mapThrowing (bodyRow r) records
  = Ok (map (fun row =>
               tr (Some (getRowKey r row))
                  (map (fun header => th None (Raw (getProperty row header)))
                       (row_headers r)
                   ++ imap (fun index header => dataCell r row header index) level))
            records).
Proof.
  intros H. induction records as [|row records IH]; [done|].
  cbn [mapThrowing map]. unfold bodyRow at 1.
  by rewrite (firstHeaderLevelMap_defined r _ level levels H), IH.
Qed.

(** The component throws in one case only: it is not loading, there is a
    result, and the result has records but no level of column headers.
    A result without records and without column headers is rendered as an
    empty table. *)
Theorem PivotTable_throws_iff (result : option PivotResult) (isLoading : bool) :
  ((∃ e, PivotTable result isLoading = Throw e)
   ↔ isLoading = false
     ∧ ∃ r, result = Some r ∧ column_headers r = [] ∧ data r ≠ [])
  ∧ (∀ r, result = Some r → isLoading = false →
          column_headers r = [] → data r = [] →
          PivotTable result isLoading = Ok (Table [] [])).
Proof.
  split.
  - unfold PivotTable. destruct isLoading.
    { split; [by intros [e He]|by intros [? _]]. }
    destruct result as [r|].
    + rewrite table_throws_iff. split.
      * intros H. split; [done|]. by exists r.
      * intros (_ & r' & Heq & H). by injection Heq as <-.
    + split; [by intros [e He]|by intros (_ & r & ? & _)].
  - intros r -> -> Hch Hdata. unfold PivotTable, table, headerRow.
    by rewrite Hch, Hdata.
Qed.

(** With a first level of column headers the component returns a table
    with exactly one header row and one body row per record, in the order
    of the records.  The header row is a corner cell that spans the row
    headers, if there are any, followed by one header cell per first-level
    header in their order.  Each body row is keyed by the values of its row
    headers and is one header cell per row header, showing [row[header]],
    followed by one data cell per first-level header. *)
Theorem PivotTable_shape (r : PivotResult) (level : list string)
    (levels : list (list string)) :
  column_headers r = level :: levels →
  PivotTable (Some r) false
  = Ok (Table
          [tr None
              (match row_headers r with
               | [] => []
               | _ :: _ => [th (Some (length (row_headers r))) Empty]
               end
               ++ map (fun header => th None (Text header)) level)]
          (map (fun row =>
                  tr (Some (map (fun header => getProperty row header) (row_headers r)))
                     (map (fun header => th None (Raw (getProperty row header)))
                          (row_headers r)
                      ++ imap (fun index header => dataCell r row header index) level))
               (data r)))
  ∧ (∃ tbody, PivotTable (Some r) false
              = Ok (Table
                      [tr None
                          (match row_headers r with
                           | [] => []
                           | _ :: _ => [th (Some (length (row_headers r))) Empty]
                           end
                           ++ map (fun header => th None (Text header)) level)]
                      tbody)
              ∧ length tbody = length (data r)
              ∧ Forall (fun row => length (cells row)
                                   = length (row_headers r) + length level) tbody).
Proof.
  intros Hch.
  assert (Hrender :
    PivotTable (Some r) false
    = Ok (Table
            [tr None
                (match row_headers r with
                 | [] => []
                 | _ :: _ => [th (Some (length (row_headers r))) Empty]
                 end
                 ++ map (fun header => th None (Text header)) level)]
            (map (fun row =>
                    tr (Some (map (fun header => getProperty row header) (row_headers r)))
                       (map (fun header => th None (Raw (getProperty row header)))
                            (row_headers r)
                        ++ imap (fun index header => dataCell r row header index) level))
                 (data r)))).
  { unfold PivotTable, table, headerRow.
    rewrite (body_rows_explicit r level levels _ Hch), Hch.
    cbn [length Nat.ltb Nat.leb].
    rewrite (firstHeaderLevelMap_defined r _ level levels Hch).
    assert (Hheaders :
      imap (fun (index : nat) (header : string) => th None (Text header)) level
      = map (fun header => th None (Text header)) level)
      by apply (imap_const (fun header : string => th None (Text header))).
    rewrite Hheaders. unfold getRowKey.
    by destruct (row_headers r). }
  split; [exact Hrender|].
  eexists. split; [exact Hrender|]. split.
  - by rewrite length_map.
  - apply Forall_forall. intros row Hrow.
    apply list_elem_of_fmap in Hrow as (record & -> & _). cbn.
    by rewrite length_app, length_map, length_imap.
Qed.

(** The theorem on a result with two records, one of which has no own
    property for the row header [constructor], and one header level. *)
Lemma PivotTable_shape_witness :
  PivotTable
    (Some {| data := [ [("constructor", VString "east"); ("amount_Sum", VNull)];
                       [("amount_Sum", VNull)] ];
             column_headers := [ ["amount_Sum"] ];
             row_headers := ["constructor"] |}) false
  = Ok (Table
          [tr None [th (Some 1) Empty; th None (Text "amount_Sum")]]
          [tr (Some [Some (VString "east")])
              [th None (Raw (Some (VString "east"))); td (Raw (Some VNull))];
           tr (Some [Some (VInherited "constructor")])
              [th None (Raw (Some (VInherited "constructor"))); td (Raw (Some VNull))]]).
Proof.
  apply (PivotTable_shape
           {| data := [ [("constructor", VString "east"); ("amount_Sum", VNull)];
                        [("amount_Sum", VNull)] ];
              column_headers := [ ["amount_Sum"] ];
              row_headers := ["constructor"] |}
           ["amount_Sum"] []).
  reflexivity.
Defined.

(** Only the first level of column headers is read: two results that
    differ in the further levels only are rendered alike. *)
Theorem PivotTable_reads_first_level_only (records : list JSObject)
    (level : list string) (levels levels' : list (list string))
    (headers : list string) (isLoading : bool) :
  PivotTable (Some {| data := records; column_headers := level :: levels;
                      row_headers := headers |}) isLoading
  = PivotTable (Some {| data := records; column_headers := level :: levels';
                        row_headers := headers |}) isLoading.
Proof.
  unfold PivotTable. destruct isLoading; [done|].
  unfold table, headerRow.
  rewrite (body_rows_explicit
             {| data := records; column_headers := level :: levels;
                row_headers := headers |} level levels _ eq_refl).
  rewrite (body_rows_explicit
             {| data := records; column_headers := level :: levels';
                row_headers := headers |} level levels' _ eq_refl).
  reflexivity.
Qed.

(** A data cell is empty, or it shows the value of a key of the record
    that contains an underscore, is no row header and ends with the column
    header; so a key without an underscore is never shown in a data cell.
    When no key of the record qualifies, the cell is the empty string. *)
Theorem dataCell_shows_matching_key (r : PivotResult) (row : JSObject)
    (colHeader : string) (colIndex : nat) :
  (dataCell r row colHeader colIndex = td (Raw (Some (VString "")))
   ∨ ∃ k, List.In k (keys row)
          ∧ JS.includesChar "_" k = true
          ∧ (k ∉ row_headers r)
          ∧ JS.endsWith colHeader k = true
          ∧ dataCell r row colHeader colIndex
            = td match getProperty row k with
                 | Some (VNumber n) => Localized n
                 | other => Raw other
                 end)
  ∧ ((∀ k, List.In k (keys row) → JS.includesChar "_" k = true →
           k ∉ row_headers r → JS.endsWith colHeader k = false) →
     dataCell r row colHeader colIndex = td (Raw (Some (VString "")))).
Proof.
  unfold dataCell. split.
  - destruct (List.find _ _) as [k|] eqn:Hfind; [|by left].
    apply find_some in Hfind as [Hin Hends].
    apply filter_In in Hin as [Hin Hkeep].
    apply andb_prop in Hkeep as [Hus Hrow].
    destruct k as [|c k]; [by left|].
    apply negb_true_iff, bool_decide_eq_false_1 in Hrow.
    right. exists (String c k). split; [done|]. split; [done|].
    split; [done|]. split; [done|].
    by destruct (getProperty row (String c k)) as [[]|].
  - intros Hnone. destruct (List.find _ _) as [k|] eqn:Hfind; [|done].
    apply find_some in Hfind as [Hin Hends].
    apply filter_In in Hin as [Hin Hkeep].
    apply andb_prop in Hkeep as [Hus Hrow].
    apply negb_true_iff, bool_decide_eq_false_1 in Hrow.
    rewrite (Hnone k Hin Hus Hrow) in Hends. discriminate Hends.
Qed.

End PivotTableRows.

(** ** The application as a whole *)
Section UIFacts.
Import UI.

Lemma selectFile_call (dialog : FileSelector.Promise FileSelector.Selected)
    (get_csv_columns : string → FileSelector.Promise (list string))
    (error : option string) (path : string) (cols : list string) :
  (FileSelector.selectFile dialog get_csv_columns error).2 = Some (path, cols) →
  path ≠ EmptyString.
Proof.
  unfold FileSelector.selectFile.
  destruct dialog as [[|[|c selected]|paths]|err]; cbn; try done.
  destruct (get_csv_columns _); cbn; [|done].
  intros H. by injection H as <- _.
Qed.

(** The filter events of the application run the handlers of the
    component, and hand on the list the component has then, or nothing. *)
Lemma handle_Filter (s : State) (e : FilterConfigurator.Event) :
  let fs' := FilterConfigurator.handle (App.columns (app s)) (filterConfigurator s) e in
  handle s (Filter e) = s ∨ handle s (Filter e) = filtered fs' s.
Proof.
  destruct e as [|index|index fv]; cbn.
  - unfold FilterConfigurator.addFilter.
    destruct (App.columns (app s)); [by left|by right].
  - by right.
  - destruct (FilterConfigurator.updateFilter _ _ _); [by right|by left].
Qed.

Lemma initial_invariant : UI_invariant initial.
Proof.
  split; cbn; try done; try (by left); constructor.
Qed.

Lemma makeRequest_wellFormed (a : App.State) (path : string) :
  path ≠ EmptyString →
  App.valueFields a ≠ [] →
  NoDup (App.rowFields a ++ App.columnFields a ++ map field (App.valueFields a)) →
  Forall (fun v => aggregation v ∈ PivotConfigurator.aggregationOptions)
    (App.valueFields a) →
  Forall (fun f => operator f ∈ FilterConfigurator.operatorOptions) (App.filters a) →
  wellFormedRequest (App.makeRequest path a).
Proof.
  intros Hpath Hvals Hnd Hagg Hops.
  unfold wellFormedRequest, App.makeRequest. cbn.
  repeat split; try done.
  by destruct (App.filters a).
Qed.

Lemma handle_invariant (s : State) (e : Event) :
  UI_invariant s → enabled s e → UI_invariant (handle s e).
Proof.
  intros [] He. destruct e as [dialog get_csv_columns|e|e| |outcome].
  - (* a file is selected, or not *)
    cbn [handle].
    destruct (FileSelector.selectFile dialog get_csv_columns (fileSelectorError s))
      as [error [[path cols]|]] eqn:Hsel; [|split; cbn; done].
    assert (Hpath : path ≠ EmptyString).
    { eapply (selectFile_call dialog get_csv_columns). by rewrite Hsel. }
    split; cbn; try done.
    + intros p Hp. by injection Hp as <-.
    + destruct cols; [constructor|done].
    + destruct cols; [constructor|done].
    + destruct cols; [constructor|done].
    + intros r Hr. by destruct (inv_pending0 r Hr).
    + by left.
    + by left.
  - (* the pivot configurator *)
    destruct He as [_ He]. cbn [handle].
    pose proof (handle_exclusive _ e inv_fields0) as Hnd.
    pose proof (handle_keeps_offered _ _ _ He inv_aggregations0) as Hagg.
    split; cbn; done.
  - (* the filter configurator *)
    destruct He as [_ He].
    pose proof (handle_keeps_operators _ _ _ He inv_operators0) as Hops.
    destruct (handle_Filter s e) as [-> | ->]; split; cbn; done.
  - (* the button *)
    cbn in He. pose proof (generateEnabled_values _ He) as [Hvals Hload].
    apply andb_prop in He as [Hcols _].
    destruct (App.filePath (app s)) as [path|] eqn:Hfile.
    2:{ rewrite inv_file0 in Hcols; done. }
    pose proof (inv_path0 path eq_refl) as Hpath.
    cbn [handle].
    rewrite (generatePivot_begin_valid (app s) path Hfile Hpath Hvals).
    split; cbn; try done.
    + by rewrite Hfile.
    + intros p Hp. rewrite Hfile in Hp. by injection Hp as <-.
    + intros r Hr. injection Hr as <-. split; [|done].
      by apply makeRequest_wellFormed.
    + by left.
    + by left.
  - (* the promise settles *)
    cbn in He. cbn [handle].
    destruct (pending s) as [request|] eqn:Hpending; [|done].
    destruct (inv_pending0 request eq_refl) as [_ Herr].
    destruct outcome as [r|err]; split; cbn; try done.
    + by left.
    + right. by eexists.
    + by right.
Qed.

Lemma reachable_invariant (s : State) : reachable s → UI_invariant s.
Proof.
  induction 1 as [|s e _ IH He]; [apply initial_invariant|].
  by apply handle_invariant.
Qed.

(** A run for the theorems below: a file with two columns is selected and
    [amount] becomes a value field; then the button is clicked. *)
Lemma reachable_configured :
  reachable
    (handle
       (handle initial
          (FileSelection (FileSelector.Fulfilled (FileSelector.OnePath "sales.csv"))
             (fun _ => FileSelector.Fulfilled ["region"; "amount"])))
       (Configure (PivotConfigurator.DimensionChange "amount" PivotConfigurator.Values))).
Proof.
  apply reachable_event; [apply reachable_event; [apply reachable_initial|exact I]|].
  split; [reflexivity|]. cbn. rewrite !elem_of_cons. tauto.
Defined.

Lemma reachable_pending :
  reachable
    (handle
       (handle
          (handle initial
             (FileSelection (FileSelector.Fulfilled (FileSelector.OnePath "sales.csv"))
                (fun _ => FileSelector.Fulfilled ["region"; "amount"])))
          (Configure (PivotConfigurator.DimensionChange "amount" PivotConfigurator.Values)))
       ClickGenerate).
Proof. apply reachable_event; [apply reachable_configured|reflexivity]. Defined.

(** C5.  Every pivot computation of the application either fully succeeds
    or is fully rejected.  In every state the application can reach, an
    error and a result are never there together.  Every call of
    [generatePivot] the application can make, that is every click on the
    enabled button, sends one request and completes, not loading, with the
    result the backend returned and a null error, or with the error set and
    a null result.  The same holds when the request settles after other
    events have changed the configuration or the filters. *)
Theorem pivot_computation_all_or_nothing (s : State) :
  reachable s →
  ¬ (is_Some (App.error (app s)) ∧ is_Some (App.pivotResult (app s)))
  ∧ (∀ backend : App.Backend,
       App.generateEnabled (app s) = true →
       ∃ path,
         App.filePath (app s) = Some path
         ∧ (App.generatePivot backend (app s)).2 = [App.makeRequest path (app s)]
         ∧ App.isLoading (App.generatePivot backend (app s)).1 = false
         ∧ match backend (App.makeRequest path (app s)) with
           | App.Resolved r =>
               App.pivotResult (App.generatePivot backend (app s)).1 = Some r
               ∧ App.error (App.generatePivot backend (app s)).1 = None
           | App.Rejected err =>
               App.pivotResult (App.generatePivot backend (app s)).1 = None
               ∧ App.error (App.generatePivot backend (app s)).1
                 = Some ("Error generating pivot: " +:+ App.errorText err)
           end
         ∧ (fullySucceeded (App.generatePivot backend (app s)).1
            ∨ fullyRejected (App.generatePivot backend (app s)).1))
  ∧ (∀ outcome : App.Settled,
       pending s ≠ None →
       App.isLoading (app (handle s (Settle outcome))) = false
       ∧ match outcome with
         | App.Resolved r =>
             App.pivotResult (app (handle s (Settle outcome))) = Some r
             ∧ App.error (app (handle s (Settle outcome))) = None
         | App.Rejected err =>
             App.pivotResult (app (handle s (Settle outcome))) = None
             ∧ App.error (app (handle s (Settle outcome)))
               = Some ("Error generating pivot: " +:+ App.errorText err)
         end
       ∧ (fullySucceeded (app (handle s (Settle outcome)))
          ∨ fullyRejected (app (handle s (Settle outcome))))).
Proof.
  intros Hreach. pose proof (reachable_invariant s Hreach) as Hinv.
  split; [|split].
  - intros [[e He] [r Hr]].
    destruct (inv_exclusive s Hinv) as [H|H]; congruence.
  - intros backend He.
    pose proof (generateEnabled_values _ He) as [Hvals _].
    pose proof He as Hcols. apply andb_prop in Hcols as [Hcols _].
    destruct (App.filePath (app s)) as [path|] eqn:Hfile.
    2:{ rewrite (inv_file s Hinv Hfile) in Hcols. discriminate Hcols. }
    pose proof (inv_path s Hinv path Hfile) as Hpath.
    exists path. split; [done|].
    exact (generatePivot_all_or_nothing backend (app s) path Hfile Hpath Hvals).
  - intros outcome Hpending. cbn [handle].
    destruct (pending s) as [request|] eqn:Hp; [|done].
    destruct (inv_pending s Hinv request Hp) as [_ Herr].
    unfold fullySucceeded, fullyRejected.
    destruct outcome as [r|err]; cbn; rewrite ?Herr; eauto 10.
Qed.

(** The theorem on the run above, for a backend that resolves with a
    result without records. *)
Lemma pivot_computation_all_or_nothing_witness :
  App.pivotResult
    (App.generatePivot
       (fun _ => App.Resolved {| data := []; column_headers := []; row_headers := [] |})
       (app (handle
               (handle initial
                  (FileSelection
                     (FileSelector.Fulfilled (FileSelector.OnePath "sales.csv"))
                     (fun _ => FileSelector.Fulfilled ["region"; "amount"])))
               (Configure (PivotConfigurator.DimensionChange "amount"
                             PivotConfigurator.Values))))).1
  = Some {| data := []; column_headers := []; row_headers := [] |}.
Proof.
  destruct (pivot_computation_all_or_nothing _ reachable_configured)
    as (_ & Hcall & _).
  destruct (Hcall (fun _ => App.Resolved
                              {| data := []; column_headers := [];
                                 row_headers := [] |}) eq_refl)
    as (path & _ & _ & _ & Houtcome & _).
  exact (proj1 Houtcome).
Defined.

(** In every state of the application in which the button is enabled, a
    click sends a request: none of the two checks of [generatePivot] turns
    it down.  The request is the one built from the selected path and the
    current configuration, it is well formed, and the error is cleared. *)
Theorem enabled_click_sends_request (s : State) :
  reachable s →
  App.generateEnabled (app s) = true →
  ∃ path,
    App.filePath (app s) = Some path
    ∧ pending (handle s ClickGenerate) = Some (App.makeRequest path (app s))
    ∧ wellFormedRequest (App.makeRequest path (app s))
    ∧ App.error (app (handle s ClickGenerate)) = None
    ∧ App.isLoading (app (handle s ClickGenerate)) = true.
Proof.
  intros Hreach He.
  pose proof (reachable_invariant s Hreach) as Hinv.
  pose proof (handle_invariant s ClickGenerate Hinv He) as Hinv'.
  pose proof (generateEnabled_values _ He) as [Hvals Hload].
  pose proof He as Hcols. apply andb_prop in Hcols as [Hcols _].
  destruct (App.filePath (app s)) as [path|] eqn:Hfile.
  2:{ rewrite (inv_file s Hinv Hfile) in Hcols. discriminate Hcols. }
  pose proof (inv_path s Hinv path Hfile) as Hpath.
  exists path. split; [done|].
  assert (Hpend : pending (handle s ClickGenerate)
                  = Some (App.makeRequest path (app s))).
  { cbn [handle].
    by rewrite (generatePivot_begin_valid (app s) path Hfile Hpath Hvals). }
  split; [exact Hpend|].
  destruct (inv_pending _ Hinv' _ Hpend) as [Hwf Herr].
  split; [exact Hwf|]. split; [exact Herr|].
  apply (inv_loading _ Hinv'). by rewrite Hpend.
Qed.

(** The theorem on the run above. *)
Lemma enabled_click_sends_request_witness :
  ∃ path,
    App.filePath
      (app (handle
              (handle initial
                 (FileSelection (FileSelector.Fulfilled (FileSelector.OnePath "sales.csv"))
                    (fun _ => FileSelector.Fulfilled ["region"; "amount"])))
              (Configure (PivotConfigurator.DimensionChange "amount"
                            PivotConfigurator.Values))))
    = Some path.
Proof.
  destruct (enabled_click_sends_request _ reachable_configured eq_refl)
    as (path & Hpath & _).
  by exists path.
Defined.

(** In no state of the application is one of the two messages of the
    checks of [generatePivot] the error: the error is null or the message
    of a failed computation.  And an error and a result are never there
    together. *)
Theorem check_messages_never_shown (s : State) :
  reachable s →
  App.error (app s) ≠ Some selectFileMessage
  ∧ App.error (app s) ≠ Some emptyValueFieldsMessage
  ∧ ¬ (is_Some (App.error (app s)) ∧ is_Some (App.pivotResult (app s))).
Proof.
  intros Hreach. pose proof (reachable_invariant s Hreach) as Hinv.
  repeat split.
  - destruct (inv_error s Hinv) as [->|[err ->]]; [done|]. intros H. discriminate H.
  - destruct (inv_error s Hinv) as [->|[err ->]]; [done|]. intros H. discriminate H.
  - intros [[e He] [r Hr]].
    destruct (inv_exclusive s Hinv) as [H|H]; congruence.
Qed.

(** The theorem on the run above, with the request still pending. *)
Lemma check_messages_never_shown_witness :
  App.error
    (app (handle
            (handle
               (handle initial
                  (FileSelection (FileSelector.Fulfilled (FileSelector.OnePath "sales.csv"))
                     (fun _ => FileSelector.Fulfilled ["region"; "amount"])))
               (Configure (PivotConfigurator.DimensionChange "amount"
                             PivotConfigurator.Values)))
            ClickGenerate))
  ≠ Some selectFileMessage.
Proof. apply (check_messages_never_shown _ reachable_pending). Defined.

(** The application is loading exactly while a request is pending, and
    while one is pending the button is disabled: there is never a second
    request before the first has settled. *)
Theorem loading_while_pending (s : State) :
  reachable s →
  (App.isLoading (app s) = true ↔ pending s ≠ None)
  ∧ (pending s ≠ None → App.generateEnabled (app s) = false).
Proof.
  intros Hreach. pose proof (reachable_invariant s Hreach) as Hinv.
  split; [apply (inv_loading s Hinv)|].
  intros Hp. apply (inv_loading s Hinv) in Hp.
  unfold App.generateEnabled. rewrite Hp. cbn. apply andb_false_r.
Qed.

(** The theorem on the run above, with the request still pending. *)
Lemma loading_while_pending_witness :
  App.generateEnabled
    (app (handle
            (handle
               (handle initial
                  (FileSelection (FileSelector.Fulfilled (FileSelector.OnePath "sales.csv"))
                     (fun _ => FileSelector.Fulfilled ["region"; "amount"])))
               (Configure (PivotConfigurator.DimensionChange "amount"
                             PivotConfigurator.Values)))
            ClickGenerate))
  = false.
Proof.
  apply (loading_while_pending _ reachable_pending). discriminate.
Defined.

(** When the pending request settles, whatever happened in between, the
    application stops loading and is in one of two states: the result of
    the backend is stored and the error is null, or the message of the
    failure is the error and the result is null. *)
Theorem settled_request_all_or_nothing (s : State) (outcome : App.Settled) :
  reachable s →
  pending s ≠ None →
  let s' := handle s (Settle outcome) in
  pending s' = None
  ∧ App.isLoading (app s') = false
  ∧ match outcome with
    | App.Resolved r =>
        App.pivotResult (app s') = Some r ∧ App.error (app s') = None
    | App.Rejected err =>
        App.pivotResult (app s') = None
        ∧ App.error (app s')
          = Some ("Error generating pivot: " +:+ App.errorText err)
    end.
Proof.
  intros Hreach Hpending s'. subst s'.
  pose proof (reachable_invariant s Hreach) as Hinv.
  cbn [handle]. destruct (pending s) as [request|] eqn:Hp; [|done].
  destruct (inv_pending s Hinv request Hp) as [_ Herr].
  cbn. split; [done|]. split; [done|].
  by destruct outcome.
Qed.

(** The theorem on the run above, when the backend rejects. *)
Lemma settled_request_all_or_nothing_witness :
  App.pivotResult
    (app (handle
            (handle
               (handle
                  (handle initial
                     (FileSelection
                        (FileSelector.Fulfilled (FileSelector.OnePath "sales.csv"))
                        (fun _ => FileSelector.Fulfilled ["region"; "amount"])))
                  (Configure (PivotConfigurator.DimensionChange "amount"
                                PivotConfigurator.Values)))
               ClickGenerate)
            (Settle (App.Rejected (App.ErrorInstance "no such column")))))
  = None.
Proof.
  apply (settled_request_all_or_nothing _
           (App.Rejected (App.ErrorInstance "no such column")) reachable_pending).
  discriminate.
Defined.

(** In every state the application can reach, also after other files
    have been selected, no field is assigned twice, neither in the pivot
    configurator nor in the lists [App] builds its request from, and every
    aggregation in them is one of the eight the control offers: [First] and
    [Last] never occur. *)
Theorem application_fields_exclusive (s : State) :
  reachable s →
  NoDup (assignedFields (configurator s))
  ∧ NoDup (App.rowFields (app s) ++ App.columnFields (app s)
           ++ map field (App.valueFields (app s)))
  ∧ Forall (fun v => aggregation v ∈ PivotConfigurator.aggregationOptions
                     ∧ aggregation v ≠ First ∧ aggregation v ≠ Last)
      (PivotConfigurator.valueFields (configurator s))
  ∧ Forall (fun v => aggregation v ∈ PivotConfigurator.aggregationOptions
                     ∧ aggregation v ≠ First ∧ aggregation v ≠ Last)
      (App.valueFields (app s)).
Proof.
  intros Hreach. pose proof (reachable_invariant s Hreach) as Hinv.
  split; [apply (inv_fields s Hinv)|].
  split; [apply (inv_app_fields s Hinv)|].
  split.
  - eapply Forall_impl; [apply (inv_aggregations s Hinv)|].
    intros v Hv. cbn beta in Hv. split; [done|]. by apply First_Last_not_offered.
  - eapply Forall_impl; [apply (inv_app_aggregations s Hinv)|].
    intros v Hv. cbn beta in Hv. split; [done|]. by apply First_Last_not_offered.
Qed.

(** The theorem on the run above. *)
Lemma application_fields_exclusive_witness :
  NoDup
    (assignedFields
       (configurator
          (handle
             (handle initial
                (FileSelection (FileSelector.Fulfilled (FileSelector.OnePath "sales.csv"))
                   (fun _ => FileSelector.Fulfilled ["region"; "amount"])))
             (Configure (PivotConfigurator.DimensionChange "amount"
                           PivotConfigurator.Values))))).
Proof. apply (application_fields_exclusive _ reachable_configured). Defined.

End UIFacts.

(** ** [FilterConfigurator]: the columns of the conditions *)
Section FilterConfiguratorColumns.
Import FilterConfigurator.

Lemma handle_keeps_filter_columns (columns : list string)
    (filters : list FilterCondition) (e : Event) :
  rendered columns filters e →
  Forall (fun f => column f ∈ columns) filters →
  Forall (fun f => column f ∈ columns) (handle columns filters e).
Proof.
  intros He Hall. destruct e as [|index|index fv]; cbn [handle].
  - unfold addFilter. destruct columns as [|first rest] eqn:Hcols; [done|].
    apply Forall_app. split; [done|].
    repeat constructor.
  - by apply Forall_filterWithIndex.
  - unfold updateFilter.
    destruct (filters !! index) as [target|] eqn:Hlook; [|done].
    assert (Htarget : column target ∈ columns).
    { eapply (proj1 (Forall_forall _ _) Hall), list_elem_of_lookup_2, Hlook. }
    apply Forall_insert; [done|].
    destruct fv as [v|v|v]; cbn; [done| |done].
    by destruct He as [_ Hv].
Qed.

(** As long as the columns stay the same, every condition the filter
    configurator can reach names one of them: a new condition takes the
    first column, and the column control offers the columns only. *)
Theorem filter_columns_are_offered (columns : list string)
    (filters : list FilterCondition) :
  reachable columns filters → Forall (fun f => column f ∈ columns) filters.
Proof.
  induction 1 as [|filters e _ IH He]; [constructor|].
  by apply handle_keeps_filter_columns.
Qed.

(** The theorem on a run: a condition is added and its column is set to
    the second column. *)
Lemma filter_columns_are_offered_witness :
  Forall (fun f => column f ∈ ["region"; "amount"])
    (handle ["region"; "amount"]
       (handle ["region"; "amount"] [] ClickAdd)
       (Change 0 (ColumnField "amount"))).
Proof.
  apply (filter_columns_are_offered ["region"; "amount"]).
  apply reachable_event; [apply reachable_event; [apply reachable_initial|exact I]|].
  split; [cbn; lia|]. rewrite !elem_of_cons. tauto.
Defined.

End FilterConfiguratorColumns.
